(** * Brick rows fitted to a disk: a model of [compute_optimal_circle.py]

    The program computes, for a disk of a given diameter, rows of
    rectangles of a fixed height that approximate the upper half of the
    disk, and the area by which rows and disk differ.

    Conventions of the embedding.
    - A Python [float] is a real number: rounding is not modelled, so the
      development speaks about the arithmetic the program is written in,
      not about its last bits.  One place where the last bits can show
      is the pip count [floor((uw - uw % p) / p)] of a row: in double
      precision the quotient can fall just short of a whole number and
      the count come out one lower than in exact arithmetic.  Where a
      statement ties the parity block to the width a row gets, it
      speaks of the count and the width the quantization itself
      produced, whatever they are.
    - What Python raises stays visible.  [math.sqrt] of a negative number
      and [math.acos] outside [[-1, 1]] raise [ValueError]; a float
      division or modulo by zero raises [ZeroDivisionError].  Every
      operation that can raise returns a [res].
    - The two [while] loops take a bound on their number of iterations;
      running out of it is the third outcome, [OutOfFuel], and the
      theorems that promise a result give a bound that is enough.
    - [piece_height] reaches the program either as a Python 2 [int] (the
      default [2]) or as a [float]; the only place where the two differ
      is [piece_height/2], which floors on an [int].  It is kept as a
      [pynum]; every other quantity is used through its value. *)

From Stdlib Require Import Reals Lra Lia ZArith List Bool Psatz Zfloor.
Import ListNotations.

Open Scope R_scope.

(** ** Outcomes *)

Inductive pyexn : Type :=
| ValueError
| ZeroDivisionError.

Inductive res (A : Type) : Type :=
| Ok (a : A)
| Raise (e : pyexn)
| OutOfFuel.

Arguments Ok {A} a.
Arguments Raise {A} e.
Arguments OutOfFuel {A}.

Definition bind {A B : Type} (m : res A) (k : A -> res B) : res B :=
  match m with
  | Ok a => k a
  | Raise e => Raise e
  | OutOfFuel => OutOfFuel
  end.

Notation "x <- m ;; k" := (bind m (fun x => k))
  (at level 61, m at next level, right associativity).

(** ** Python numbers and the partial operations of [math] *)

Inductive pynum : Type :=
| PyInt (n : Z)
| PyFloat (x : R).

Definition num_val (v : pynum) : R :=
  match v with
  | PyInt n => IZR n
  | PyFloat x => x
  end.

(** [v / 2] in Python 2: floor division on an [int], true division on a
    [float]. *)
Definition py_half (v : pynum) : pynum :=
  match v with
  | PyInt n => PyInt (n / 2)
  | PyFloat x => PyFloat (x / 2)
  end.

Definition py_sqrt (x : R) : res R :=
  if Rlt_dec x 0 then Raise ValueError else Ok (sqrt x).

Definition py_acos (x : R) : res R :=
  if Rlt_dec x (-1) then Raise ValueError
  else if Rlt_dec 1 x then Raise ValueError
  else Ok (acos x).

Definition py_div (a b : R) : res R :=
  if Req_dec_T b 0 then Raise ZeroDivisionError else Ok (a / b).

(** Float [a % b]: the remainder that has the sign of [b]. *)
Definition py_fmod (a b : R) : res R :=
  if Req_dec_T b 0 then Raise ZeroDivisionError
  else Ok (a - b * IZR (Zfloor (a / b))).

(** Truth value of a number: everything but zero. *)
Definition truthy (x : R) : bool :=
  if Req_dec_T x 0 then false else true.

(** [min(enumerate(l), key=itemgetter(1))]: the first pair whose second
    component is least; [ValueError] on an empty list. *)
Fixpoint min_scan (best : nat * R) (l : list (nat * R)) : nat * R :=
  match l with
  | [] => best
  | x :: t => if Rlt_dec (snd x) (snd best) then min_scan x t
              else min_scan best t
  end.

Definition enumerate (l : list R) : list (nat * R) :=
  combine (seq 0 (length l)) l.

Definition py_min_enum (l : list R) : res (nat * R) :=
  match enumerate l with
  | [] => Raise ValueError
  | x :: t => Ok (min_scan x t)
  end.

(** ** The class [FunnyCircle]

    Every method takes the diameter, the one field of the object. *)

Module FunnyCircle.

Definition UnrestrictedFit (d y piece_height : R) : res R :=
  s <- py_sqrt ((d / 2) ^ 2 - (y + piece_height) ^ 2) ;;
  Ok (2 * s).

Definition ComputeSliceError (d y piece_height piece_width : R) : res R :=
  let h := piece_height in
  let w := piece_width in
  let r := d / 2 in
  let r2 := r * r in
  let yh := y + h in
  if truthy piece_width then
    q1 <- py_div y r ;;
    a1 <- py_acos q1 ;;
    q2 <- py_div yh r ;;
    a2 <- py_acos q2 ;;
    s1 <- py_sqrt (r2 - y * y) ;;
    s2 <- py_sqrt (r2 - yh * yh) ;;
    Ok (Rabs (a1 * r2 - a2 * r2 - y * s1 + yh * s2 - w * h))
  else
    q1 <- py_div y r ;;
    a1 <- py_acos q1 ;;
    s1 <- py_sqrt (r2 - y * y) ;;
    Ok (a1 * r2 - y * s1).

(** The width tried on top of the current one in one round of
    [ConsiderOutsidePieces]. *)
Definition try_extra (start align_pips align_even_number : bool)
    (piece_unit_width : R) : R :=
  if start then
    if align_pips && align_even_number
    then piece_unit_width + piece_unit_width
    else piece_unit_width
  else
    if align_pips then 2 * piece_unit_width else piece_unit_width.

(** The [while True] loop of [ConsiderOutsidePieces]; its state is
    [current_min], [best_error] and [start]. *)
Fixpoint outside_loop (fuel : nat) (d y piece_height piece_unit_width : R)
    (align_pips align_even_number : bool)
    (current_min best_error : R) (start : bool) : res R :=
  match fuel with
  | O => OutOfFuel
  | S fuel' =>
      let extra :=
        try_extra start align_pips align_even_number piece_unit_width in
      out_error <- ComputeSliceError d y piece_height (current_min + extra) ;;
      if Rlt_dec out_error best_error then
        outside_loop fuel' d y piece_height piece_unit_width
          align_pips align_even_number (current_min + extra) out_error false
      else Ok current_min
  end.

Definition ConsiderOutsidePieces (fuel : nat)
    (d y piece_height piece_unit_width in_best_error in_best_width : R)
    (align_pips align_even_number : bool) : res R :=
  let uw_min := in_best_width in
  let start := negb (truthy uw_min) in
  outside_loop fuel d y piece_height piece_unit_width
    align_pips align_even_number uw_min in_best_error start.

(** The parity block of [UnrestrictedFitByPieceWidth], run when
    [align_pips] holds: the pip count and the width after it. *)
Definition align_parity (align_even_number : bool) (width_in_pips : Z)
    (uw_min piece_unit_width : R) : Z * R :=
  if (align_even_number && (width_in_pips mod 2 =? 0)%Z)
     || (negb align_even_number && negb (width_in_pips mod 2 =? 0)%Z)
  then (width_in_pips, uw_min)
  else if (width_in_pips =? 0)%Z then (width_in_pips, uw_min)
  else ((width_in_pips - 1)%Z, uw_min - piece_unit_width).

(** The pip count and the width before the outside search. *)
Definition quantize (d y piece_height piece_unit_width : R)
    (align_pips align_even_number : bool) : res (Z * R) :=
  uw <- UnrestrictedFit d y piece_height ;;
  m <- py_fmod uw piece_unit_width ;;
  let uw_min := uw - m in
  q <- py_div uw_min piece_unit_width ;;
  let width_in_pips := Zfloor q in
  Ok (if align_pips
      then align_parity align_even_number width_in_pips uw_min
             piece_unit_width
      else (width_in_pips, uw_min)).

Definition UnrestrictedFitByPieceWidth (fuel : nat)
    (d y piece_height piece_unit_width : R)
    (align_pips align_even_number consider_outside : bool) : res R :=
  pw <- quantize d y piece_height piece_unit_width
          align_pips align_even_number ;;
  let uw_min := snd pw in
  if consider_outside then
    in_error <- ComputeSliceError d y piece_height uw_min ;;
    ConsiderOutsidePieces fuel d y piece_height piece_unit_width
      in_error uw_min align_pips align_even_number
  else Ok uw_min.

(** The [while y + piece_height <= r] loop of [UnrestrictedFitHalf];
    [n] bounds its rounds, [fuel] those of the search inside. *)
Fixpoint half_loop (n fuel : nat) (d piece_height piece_width : R)
    (align_pips align_even_number consider_outside : bool)
    (y : R) (widths_of_pieces : list (R * R)) (last_width : R)
    : res (R * list (R * R) * R) :=
  if Rle_dec (y + piece_height) (d / 2) then
    match n with
    | O => OutOfFuel
    | S n' =>
        w <- UnrestrictedFitByPieceWidth fuel d y piece_height piece_width
               align_pips align_even_number consider_outside ;;
        half_loop n' fuel d piece_height piece_width
          align_pips align_even_number consider_outside
          (y + piece_height) (widths_of_pieces ++ [(y, w)]) w
    end
  else Ok (y, widths_of_pieces, last_width).

Definition UnrestrictedFitHalf (fuel : nat) (d piece_height piece_width : R)
    (vertical_offset : R)
    (align_pips align_even_number consider_outside : bool)
    : res (list (R * R)) :=
  st <- half_loop fuel fuel d piece_height piece_width
          align_pips align_even_number consider_outside
          vertical_offset [] 0 ;;
  let '(y, widths_of_pieces, last_width) := st in
  if truthy last_width then Ok (widths_of_pieces ++ [(y, 0)])
  else Ok widths_of_pieces.

Fixpoint slice_errors (d piece_height : R) (widths_of_pieces : list (R * R))
    : res (list R) :=
  match widths_of_pieces with
  | [] => Ok []
  | (y, w) :: t =>
      e <- ComputeSliceError d y piece_height w ;;
      es <- slice_errors d piece_height t ;;
      Ok (e :: es)
  end.

Definition ComputeError (d : R) (widths_of_pieces : list (R * R))
    (piece_height : R) : res R :=
  es <- slice_errors d piece_height widths_of_pieces ;;
  Ok (fold_left Rplus es 0).

(** What the two [FitCircle...] methods return: the rows of the upper
    half, the width of the middle row and the error. *)
Record solution : Type := Solution {
  sol_rows : list (R * R);
  sol_middle : R;
  sol_error : R
}.

Definition FitCircleSplitMiddle (fuel : nat) (d : R) (piece_height : pynum)
    (piece_width : R) (align_pips align_even_number consider_outside : bool)
    : res solution :=
  let h := num_val piece_height in
  widths_of_pieces <- UnrestrictedFitHalf fuel d h piece_width 0
                        align_pips align_even_number consider_outside ;;
  e <- ComputeError d widths_of_pieces h ;;
  Ok (Solution widths_of_pieces 0 (2 * e)).

Definition FitCircleOffsetMiddleHalfPiece (fuel : nat) (d : R)
    (piece_height : pynum) (piece_width : R)
    (align_pips align_even_number consider_outside : bool) : res solution :=
  let h := num_val piece_height in
  let half := num_val (py_half piece_height) in
  widths_of_pieces <- UnrestrictedFitHalf fuel d h piece_width half
                        align_pips align_even_number consider_outside ;;
  middle_piece_width <- UnrestrictedFitByPieceWidth fuel d 0 half piece_width
                          align_pips align_even_number consider_outside ;;
  e <- ComputeError d widths_of_pieces h ;;
  let error := 2 * e in
  e' <- ComputeSliceError d 0 half piece_width ;;
  Ok (Solution widths_of_pieces middle_piece_width (error + 2 * e')).

End FunnyCircle.

(** ** The function [FitCircle] *)

Inductive strategy : Type :=
| SplitMiddle
| OffsetMiddleHalfPiece.

(** One entry of the list [widths_middles_errors_align]: which method is
    called, with which [align_pips] and [align_even_number], and the
    flag stored next to its result. *)
Definition combinations : list (strategy * bool * bool * bool) :=
  [ (SplitMiddle, false, false, false);
    (OffsetMiddleHalfPiece, false, false, false);
    (SplitMiddle, true, true, true);
    (OffsetMiddleHalfPiece, true, true, true);
    (SplitMiddle, true, false, true);
    (OffsetMiddleHalfPiece, true, false, true) ].

Definition fit (fuel : nat) (d : R) (piece_height : pynum) (pip_width : R)
    (consider_outside : bool) (c : strategy * bool * bool * bool)
    : res (FunnyCircle.solution * bool) :=
  let '(s, align_pips, align_even_number, a) := c in
  sol <- match s with
         | SplitMiddle =>
             FunnyCircle.FitCircleSplitMiddle fuel d piece_height pip_width
               align_pips align_even_number consider_outside
         | OffsetMiddleHalfPiece =>
             FunnyCircle.FitCircleOffsetMiddleHalfPiece fuel d piece_height
               pip_width align_pips align_even_number consider_outside
         end ;;
  Ok (sol, a).

Fixpoint fit_all (fuel : nat) (d : R) (piece_height : pynum) (pip_width : R)
    (consider_outside : bool) (cs : list (strategy * bool * bool * bool))
    : res (list (FunnyCircle.solution * bool)) :=
  match cs with
  | [] => Ok []
  | c :: t =>
      x <- fit fuel d piece_height pip_width consider_outside c ;;
      xs <- fit_all fuel d piece_height pip_width consider_outside t ;;
      Ok (x :: xs)
  end.

(** The errors of the entries whose flag is [a], in list order. *)
Definition errors_with_flag (a : bool)
    (l : list (FunnyCircle.solution * bool)) : list R :=
  map (fun x => FunnyCircle.sol_error (fst x))
      (filter (fun x => eqb (snd x) a) l).

(** What [FitCircle] computes before it prints: the six entries and the
    two pairs (index, error) it calls best. *)
Record report : Type := Report {
  entries : list (FunnyCircle.solution * bool);
  best_aligned : nat * R;
  best_unaligned : nat * R
}.

Definition FitCircle (fuel : nat) (diameter : R) (piece_height : pynum)
    (pip_width : R) (consider_outside : bool) : res report :=
  l <- fit_all fuel diameter piece_height pip_width consider_outside
         combinations ;;
  ma <- py_min_enum (errors_with_flag true l) ;;
  mu <- py_min_enum (errors_with_flag false l) ;;
  Ok (Report l ma mu).

(** ** The closed forms the specification names *)

(** [segmentArea(y, h)], the area of the band of the disk between the
    heights [y] and [y + h], as the specification writes it. *)
Definition segmentArea (d y h : R) : R :=
  let r := d / 2 in
  acos (y / r) * (r * r) - acos ((y + h) / r) * (r * r)
  - y * sqrt (r * r - y * y) + (y + h) * sqrt (r * r - (y + h) * (y + h)).

(** The area of the whole cap of the disk above the height [y]. *)
Definition capArea (d y : R) : R :=
  let r := d / 2 in
  acos (y / r) * (r * r) - y * sqrt (r * r - y * y).

(** The width after [k] accepted rounds of the outside search that
    starts from [W]: the seed step first, the steady step afterwards. *)
Fixpoint cand_width (start align_pips align_even_number : bool)
    (p W : R) (k : nat) : R :=
  match k with
  | O => W
  | S k' =>
      cand_width false align_pips align_even_number p
        (W + FunnyCircle.try_extra start align_pips align_even_number p) k'
  end.

(** ** Predicates used in the statements *)

Import FunnyCircle.

(** What a finished search looks like: [n] rounds accepted, each on a
    strictly smaller error, and the round after them refused. *)
Definition search_trace (d y h p : R) (a e st : bool) (W : R) (n : nat)
    : Prop :=
  (forall k, (k < n)%nat ->
     exists e0 e1,
       ComputeSliceError d y h (cand_width st a e p W k) = Ok e0 /\
       ComputeSliceError d y h (cand_width st a e p W (S k)) = Ok e1 /\
       e1 < e0) /\
  (exists e0 e1,
     ComputeSliceError d y h (cand_width st a e p W n) = Ok e0 /\
     ComputeSliceError d y h (cand_width st a e p W (S n)) = Ok e1 /\
     ~ e1 < e0).

(** The width of a row is a whole, non-negative number of pips. *)
Definition whole_pips (p : R) (row : R * R) : Prop :=
  exists k : Z, (0 <= k)%Z /\ snd row = IZR k * p.

(** A row the loop can append: inside the disk, a whole number of pips
    wide. *)
Definition row_ok (d h p : R) (row : R * R) : Prop :=
  0 <= fst row /\ fst row + h <= d / 2 /\ whole_pips p row.

(** The slice of a row has a defined, non-negative error. *)
Definition row_defined (d h : R) (row : R * R) : Prop :=
  exists e, ComputeSliceError d (fst row) h (snd row) = Ok e /\ 0 <= e.

(** The second row is no worse than the first wherever both errors are
    defined. *)
Definition row_le (d h : R) (r0 r1 : R * R) : Prop :=
  forall e0 e1,
    ComputeSliceError d (fst r0) h (snd r0) = Ok e0 ->
    ComputeSliceError d (fst r1) h (snd r1) = Ok e1 -> e1 <= e0.

(** What the closing row can cost.  [rows0] is a row sequence computed
    without the outside search and [rows1] the one computed with it.
    They differ in length only when the search widened a last row of
    width zero, so that [rows1] has one row more, the closing row; the
    widened row [(y, w)] is then the row of [rows1] at the index of the
    last row of [rows0], and the excess is the area by which its
    rectangle [w * h] exceeds twice the band of the disk it stands in
    (zero when it does not). *)
Definition closing_excess (d h : R) (rows0 rows1 : list (R * R)) : R :=
  if (length rows0 =? length rows1)%nat then 0
  else
    match nth_error rows1 (length rows0 - 1) with
    | Some (y, w) => Rmax 0 (w * h - 2 * segmentArea d y h)
    | None => 0
    end.

(** [im] is the first least element of [l], with its index. *)
Definition is_first_min (im : nat * R) (l : list R) : Prop :=
  nth_error l (fst im) = Some (snd im) /\
  (forall x, In x l -> snd im <= x) /\
  (forall j x, (j < fst im)%nat -> nth_error l j = Some x -> snd im < x).




(** * Properties *)

(** ** The partial operations *)

Lemma bind_Ok {A B : Type} (a : A) (k : A -> res B) : bind (Ok a) k = k a.
Proof. reflexivity. Qed.

Lemma py_sqrt_ok (x : R) : 0 <= x -> py_sqrt x = Ok (sqrt x).
Proof. intros H. unfold py_sqrt. destruct (Rlt_dec x 0); [lra | reflexivity]. Qed.

Lemma py_sqrt_raise (x : R) : x < 0 -> py_sqrt x = Raise ValueError.
Proof. intros H. unfold py_sqrt. destruct (Rlt_dec x 0); [reflexivity | lra]. Qed.

Lemma py_acos_ok (x : R) : -1 <= x <= 1 -> py_acos x = Ok (acos x).
Proof.
  intros H. unfold py_acos.
  destruct (Rlt_dec x (-1)); [lra |].
  destruct (Rlt_dec 1 x); [lra | reflexivity].
Qed.

Lemma py_div_ok (a b : R) : b <> 0 -> py_div a b = Ok (a / b).
Proof. intros H. unfold py_div. destruct (Req_dec_T b 0); [contradiction | reflexivity]. Qed.

Lemma py_fmod_ok (a b : R) :
  b <> 0 -> py_fmod a b = Ok (a - b * IZR (Zfloor (a / b))).
Proof. intros H. unfold py_fmod. destruct (Req_dec_T b 0); [contradiction | reflexivity]. Qed.

Lemma py_fmod_zero (a : R) : py_fmod a 0 = Raise ZeroDivisionError.
Proof. unfold py_fmod. destruct (Req_dec_T 0 0); [reflexivity | contradiction]. Qed.

Lemma truthy_0 : truthy 0 = false.
Proof. unfold truthy. destruct (Req_dec_T 0 0); [reflexivity | contradiction]. Qed.

Lemma truthy_nonzero (x : R) : x <> 0 -> truthy x = true.
Proof. intros H. unfold truthy. destruct (Req_dec_T x 0); [contradiction | reflexivity]. Qed.

(** ** Facts of analysis about [acos] *)

Lemma acos_le_half_pi_minus (x : R) : 0 <= x <= 1 -> acos x <= PI / 2 - x.
Proof.
  intros Hx.
  pose proof (acos_bound x) as Hb.
  pose proof PI2_1 as Hpi.
  apply cos_decr_0; try lra.
  rewrite cos_acos by lra.
  rewrite cos_shift.
  destruct (Req_dec x 0) as [-> | Hnz].
  - rewrite sin_0. lra.
  - left. apply sin_lt_x. lra.
Qed.

Lemma acos_ge_of_cos (x t : R) :
  -1 <= x <= 1 -> 0 <= t <= PI -> x <= cos t -> t <= acos x.
Proof.
  intros Hx Ht Hc.
  pose proof (acos_bound x) as Hb.
  apply cos_decr_0; try lra.
  rewrite cos_acos by lra. exact Hc.
Qed.

Lemma sin_ge_cubic (t : R) : 0 <= t <= PI -> t - t ^ 3 / 6 <= sin t.
Proof.
  intros [H0 H1].
  pose proof (sin_bound t 0 H0 H1) as [Hl _].
  unfold sin_approx, sin_term in Hl. simpl in Hl.
  lra.
Qed.

(** The part of the disk above a height below the top has positive
    area. *)
Lemma capArea_pos (d y : R) : 0 < d -> 0 <= y < d / 2 -> 0 < capArea d y.
Proof.
  intros Hd Hy. unfold capArea.
  set (r := d / 2) in *. assert (Hr : 0 < r) by (unfold r; lra).
  clearbody r.
  set (x := y / r).
  assert (Hx : 0 <= x < 1).
  { unfold x. split.
    - apply Rmult_le_pos; [lra | left; now apply Rinv_0_lt_compat].
    - apply Rmult_lt_reg_r with r; [exact Hr |].
      unfold Rdiv. rewrite Rmult_assoc, Rinv_l by lra. lra. }
  assert (Hy' : y = x * r) by (unfold x; field; lra).
  assert (Hs : sqrt (r * r - y * y) = r * sqrt (1 - x²)).
  { rewrite Hy'. replace (r * r - x * r * (x * r)) with (r² * (1 - x²))
      by (unfold Rsqr; ring).
    rewrite sqrt_mult_alt by apply Rle_0_sqr.
    rewrite sqrt_Rsqr by lra. reflexivity. }
  rewrite Hs, <- sin_acos by lra.
  rewrite Hy' at 1.
  pose proof (acos_bound_lt x) as Hb.
  assert (Hb' : 0 < acos x < PI).
  { destruct (Req_dec x 0) as [E | E].
    - rewrite E, acos_0. pose proof PI2_1. lra.
    - apply acos_bound_lt. lra. }
  pose proof (sin_lt_x (acos x) (proj1 Hb')) as Hsin.
  pose proof (sin_gt_0 (acos x) (proj1 Hb') (proj2 Hb')) as Hsp.
  assert (Hmul : x * sin (acos x) <= sin (acos x)) by nra.
  assert (Hgoal : x * sin (acos x) < acos x) by lra.
  replace (acos x * (r * r) - x * r * (r * sin (acos x)))
    with (r * r * (acos x - x * sin (acos x))) by ring.
  apply Rmult_lt_0_compat; [nra | lra].
Qed.

(** ** The geometry methods on their domain *)

Lemma ratio_in_unit (r t : R) : 0 < r -> - r <= t <= r -> -1 <= t / r <= 1.
Proof.
  intros Hr [Hl Hu]. unfold Rdiv.
  pose proof (Rinv_0_lt_compat r Hr) as Hi.
  assert (E : r * / r = 1) by (apply Rinv_r; lra).
  split; nra.
Qed.

Lemma square_le_of_abs (r t : R) : 0 <= r -> - r <= t <= r -> 0 <= r * r - t * t.
Proof. intros Hr [Hl Hu]. nra. Qed.

Lemma segmentArea_caps (d y h : R) :
  segmentArea d y h = capArea d y - capArea d (y + h).
Proof. unfold segmentArea, capArea. cbv zeta. ring. Qed.

Lemma capArea_top (d : R) : 0 < d -> capArea d (d / 2) = 0.
Proof.
  intros Hd. unfold capArea. cbv zeta.
  replace (d / 2 / (d / 2)) with 1 by (field; lra).
  rewrite acos_1.
  replace (d / 2 * (d / 2) - d / 2 * (d / 2)) with 0 by ring.
  rewrite sqrt_0. ring.
Qed.

Lemma capArea_segment (d y : R) :
  0 < d -> capArea d y = segmentArea d y (d / 2 - y).
Proof.
  intros Hd. rewrite segmentArea_caps.
  replace (y + (d / 2 - y)) with (d / 2) by ring.
  rewrite capArea_top by exact Hd. ring.
Qed.

Lemma capArea_nonneg (d y : R) : 0 < d -> 0 <= y <= d / 2 -> 0 <= capArea d y.
Proof.
  intros Hd [H0 H1]. destruct (Req_dec y (d / 2)) as [-> | Hne].
  - rewrite capArea_top by exact Hd. lra.
  - left. apply capArea_pos; lra.
Qed.

Lemma UnrestrictedFit_ok (d y h : R) :
  0 <= d -> - (d / 2) <= y + h <= d / 2 ->
  UnrestrictedFit d y h = Ok (2 * sqrt ((d / 2) ^ 2 - (y + h) ^ 2)).
Proof.
  intros Hd Hy. unfold UnrestrictedFit.
  rewrite py_sqrt_ok by nra. reflexivity.
Qed.

Lemma UnrestrictedFit_raise (d y h : R) :
  0 <= d -> d / 2 < y + h -> UnrestrictedFit d y h = Raise ValueError.
Proof.
  intros Hd Hy. unfold UnrestrictedFit.
  rewrite py_sqrt_raise by nra. reflexivity.
Qed.

Lemma ComputeSliceError_zero (d y h : R) :
  0 < d -> - (d / 2) <= y <= d / 2 ->
  ComputeSliceError d y h 0 = Ok (capArea d y).
Proof.
  intros Hd Hy. unfold ComputeSliceError. cbv zeta.
  rewrite truthy_0.
  rewrite py_div_ok by lra. rewrite bind_Ok.
  rewrite py_acos_ok by (apply ratio_in_unit; lra). rewrite bind_Ok.
  rewrite py_sqrt_ok by (apply square_le_of_abs; lra). rewrite bind_Ok.
  reflexivity.
Qed.

Lemma ComputeSliceError_nonzero (d y h w : R) :
  w <> 0 -> 0 < d -> - (d / 2) <= y <= d / 2 ->
  - (d / 2) <= y + h <= d / 2 ->
  ComputeSliceError d y h w = Ok (Rabs (segmentArea d y h - w * h)).
Proof.
  intros Hw Hd Hy Hyh. unfold ComputeSliceError. cbv zeta.
  rewrite truthy_nonzero by exact Hw.
  rewrite py_div_ok by lra. rewrite bind_Ok.
  rewrite py_acos_ok by (apply ratio_in_unit; lra). rewrite bind_Ok.
  rewrite py_div_ok by lra. rewrite bind_Ok.
  rewrite py_acos_ok by (apply ratio_in_unit; lra). rewrite bind_Ok.
  rewrite py_sqrt_ok by (apply square_le_of_abs; lra). rewrite bind_Ok.
  rewrite py_sqrt_ok by (apply square_le_of_abs; lra). rewrite bind_Ok.
  reflexivity.
Qed.

(** In the disk every slice error is defined and not negative. *)
Lemma ComputeSliceError_defined (d y h w : R) :
  0 < d -> 0 <= y <= d / 2 -> - (d / 2) <= y + h <= d / 2 ->
  exists e, ComputeSliceError d y h w = Ok e /\ 0 <= e.
Proof.
  intros Hd Hy Hyh. destruct (Req_dec w 0) as [-> | Hw].
  - exists (capArea d y). split.
    + apply ComputeSliceError_zero; lra.
    + apply capArea_nonneg; lra.
  - exists (Rabs (segmentArea d y h - w * h)). split.
    + apply ComputeSliceError_nonzero; lra.
    + apply Rabs_pos.
Qed.

(** ** Quantization to pips *)

Lemma fmod_floor (uw p : R) :
  p <> 0 ->
  (uw - (uw - p * IZR (Zfloor (uw / p)))) / p = IZR (Zfloor (uw / p)).
Proof. intros Hp. field. exact Hp. Qed.

Lemma quantize_ok (d y h p uw : R) (a e : bool) :
  p <> 0 -> UnrestrictedFit d y h = Ok uw ->
  quantize d y h p a e =
  Ok (let n := Zfloor (uw / p) in
      if a then align_parity e n (IZR n * p) p else (n, IZR n * p)).
Proof.
  intros Hp Hu. unfold quantize. rewrite Hu, bind_Ok.
  rewrite py_fmod_ok by exact Hp. rewrite bind_Ok.
  rewrite py_div_ok by exact Hp. rewrite bind_Ok.
  rewrite fmod_floor by exact Hp. rewrite ZfloorZ. cbv zeta.
  replace (uw - (uw - p * IZR (Zfloor (uw / p))))
    with (IZR (Zfloor (uw / p)) * p) by ring.
  reflexivity.
Qed.

Lemma align_parity_width (e : bool) (n : Z) (p : R) :
  snd (align_parity e n (IZR n * p) p) = IZR (fst (align_parity e n (IZR n * p) p)) * p.
Proof.
  unfold align_parity.
  destruct (_ || _); [reflexivity |].
  destruct (n =? 0)%Z; [reflexivity |].
  cbn [fst snd]. rewrite minus_IZR. ring.
Qed.

Lemma align_parity_nonneg (e : bool) (n : Z) (u p : R) :
  (0 <= n)%Z -> (0 <= fst (align_parity e n u p))%Z.
Proof.
  intros Hn. unfold align_parity.
  destruct (_ || _); [exact Hn |].
  destruct (n =? 0)%Z eqn:E; [exact Hn |].
  cbn [fst]. apply Z.eqb_neq in E. lia.
Qed.

Lemma quantize_in_disk (d y h p : R) (a e : bool) :
  0 < d -> 0 < p -> - (d / 2) <= y + h <= d / 2 ->
  exists n : Z, (0 <= n)%Z /\ quantize d y h p a e = Ok (n, IZR n * p).
Proof.
  intros Hd Hp Hyh.
  pose proof (UnrestrictedFit_ok d y h ltac:(lra) Hyh) as Hu.
  set (uw := 2 * sqrt ((d / 2) ^ 2 - (y + h) ^ 2)) in *.
  assert (Huw : 0 <= uw).
  { unfold uw. pose proof (sqrt_pos ((d / 2) ^ 2 - (y + h) ^ 2)). lra. }
  assert (Hn : (0 <= Zfloor (uw / p))%Z).
  { apply Zfloor_lub. cbn [IZR].
    apply Rmult_le_pos; [exact Huw | left; now apply Rinv_0_lt_compat]. }
  rewrite (quantize_ok d y h p uw a e) by (exact Hu || lra). cbv zeta.
  destruct a.
  - exists (fst (align_parity e (Zfloor (uw / p)) (IZR (Zfloor (uw / p)) * p) p)).
    split; [now apply align_parity_nonneg |].
    rewrite <- align_parity_width. now destruct (align_parity _ _ _ _).
  - now exists (Zfloor (uw / p)).
Qed.

(** ** The outside search *)

Lemma try_extra_pips (st a e : bool) (p : R) :
  exists k : Z, (1 <= k <= 2)%Z /\ try_extra st a e p = IZR k * p.
Proof.
  unfold try_extra. destruct st, a, e; cbn [andb];
    first [ exists 1%Z; split; [lia | ring] | exists 2%Z; split; [lia | ring] ].
Qed.

Lemma try_extra_ge (st a e : bool) (p : R) : 0 < p -> p <= try_extra st a e p.
Proof.
  intros Hp. destruct (try_extra_pips st a e p) as [k [Hk ->]].
  assert (1 <= IZR k) by (apply IZR_le; lia). nra.
Qed.

Lemma cand_width_S (st a e : bool) (p W : R) (k : nat) :
  cand_width st a e p W (S k) =
  cand_width false a e p (W + try_extra st a e p) k.
Proof. reflexivity. Qed.

Lemma cand_width_pips (a e : bool) (p : R) (k : nat) :
  forall (st : bool) (W : R),
  exists j : Z, (0 <= j)%Z /\ cand_width st a e p W k = W + IZR j * p.
Proof.
  induction k as [| k IH]; intros st W.
  - exists 0%Z. split; [lia | cbn; ring].
  - destruct (IH false (W + try_extra st a e p)) as [j [Hj Ej]].
    destruct (try_extra_pips st a e p) as [i [Hi Ei]].
    exists (i + j)%Z. split; [lia |].
    rewrite cand_width_S, Ej, Ei, plus_IZR. ring.
Qed.

Lemma cand_width_ge (st a e : bool) (p W : R) (k : nat) :
  0 <= p -> W <= cand_width st a e p W k.
Proof.
  intros Hp. destruct (cand_width_pips a e p k st W) as [j [Hj ->]].
  assert (0 <= IZR j) by (apply IZR_le; lia). nra.
Qed.

Lemma outside_loop_accept (fuel : nat) (d y h p cur best e1 : R)
    (a e st : bool) :
  ComputeSliceError d y h (cur + try_extra st a e p) = Ok e1 -> e1 < best ->
  outside_loop (S fuel) d y h p a e cur best st =
  outside_loop fuel d y h p a e (cur + try_extra st a e p) e1 false.
Proof.
  intros Hc Hlt. cbn [outside_loop]. cbv zeta. rewrite Hc, bind_Ok.
  destruct (Rlt_dec e1 best); [reflexivity | contradiction].
Qed.

Lemma outside_loop_reject (fuel : nat) (d y h p cur best e1 : R)
    (a e st : bool) :
  ComputeSliceError d y h (cur + try_extra st a e p) = Ok e1 -> ~ e1 < best ->
  outside_loop (S fuel) d y h p a e cur best st = Ok cur.
Proof.
  intros Hc Hlt. cbn [outside_loop]. cbv zeta. rewrite Hc, bind_Ok.
  destruct (Rlt_dec e1 best); [contradiction | reflexivity].
Qed.

(** The search returns a width whose error is at most the error it
    started from. *)
Lemma outside_loop_error (d y h p : R) (a e : bool) (fuel : nat) :
  forall (cur best : R) (st : bool) (w : R),
  outside_loop fuel d y h p a e cur best st = Ok w ->
  ComputeSliceError d y h cur = Ok best ->
  exists e', ComputeSliceError d y h w = Ok e' /\ e' <= best.
Proof.
  induction fuel as [| fuel IH]; intros cur best st w Hrun Hcur.
  - discriminate.
  - cbn [outside_loop] in Hrun. cbv zeta in Hrun.
    destruct (ComputeSliceError d y h (cur + try_extra st a e p))
      as [e1 | x |] eqn:Hc; cbn [bind] in Hrun; try discriminate.
    destruct (Rlt_dec e1 best) as [Hlt | Hge].
    + destruct (IH _ _ _ _ Hrun Hc) as [e' [He' Hle]].
      exists e'. split; [exact He' | lra].
    + injection Hrun as <-. exists best. split; [exact Hcur | lra].
Qed.

(** The search adds whole pips. *)
Lemma outside_loop_pips (d y h p : R) (a e : bool) (fuel : nat) :
  forall (cur best : R) (st : bool) (w : R),
  outside_loop fuel d y h p a e cur best st = Ok w ->
  exists j : Z, (0 <= j)%Z /\ w = cur + IZR j * p.
Proof.
  induction fuel as [| fuel IH]; intros cur best st w Hrun.
  - discriminate.
  - cbn [outside_loop] in Hrun. cbv zeta in Hrun.
    destruct (ComputeSliceError d y h (cur + try_extra st a e p))
      as [e1 | x |]; cbn [bind] in Hrun; try discriminate.
    destruct (Rlt_dec e1 best) as [Hlt | Hge].
    + destruct (IH _ _ _ _ Hrun) as [j [Hj ->]].
      destruct (try_extra_pips st a e p) as [i [Hi ->]].
      exists (i + j)%Z. split; [lia | rewrite plus_IZR; ring].
    + injection Hrun as <-. exists 0%Z. split; [lia | cbn; ring].
Qed.

Lemma nat_above (x : R) : exists N : nat, x < INR N.
Proof.
  destruct (archimed x) as [Hup _].
  destruct (Z_lt_le_dec (up x) 0) as [Hneg | Hpos].
  - exists O. cbn. apply Rlt_trans with (IZR (up x)); [lra |].
    now apply IZR_lt.
  - exists (Z.to_nat (up x)). rewrite INR_IZR_INZ, Z2Nat.id by exact Hpos.
    lra.
Qed.

Lemma outside_loop_runs (d y h p : R) (a e : bool) :
  0 < d -> 0 <= y <= d / 2 -> 0 < h -> y + h <= d / 2 -> 0 < p ->
  forall (N : nat) (cur best : R) (st : bool),
  0 <= cur ->
  ComputeSliceError d y h cur = Ok best ->
  best + segmentArea d y h - cur * h < INR N * (p * h) ->
  exists n : nat,
    search_trace d y h p a e st cur n /\
    forall fuel, (N < fuel)%nat ->
      outside_loop fuel d y h p a e cur best st =
      Ok (cand_width st a e p cur n).
Proof.
  intros Hd Hy Hh Hyh Hp.
  induction N as [| N IH]; intros cur best st Hcur Hbest HM.
  all: pose proof (try_extra_ge st a e p Hp) as Hx.
  all: assert (Hc : ComputeSliceError d y h (cur + try_extra st a e p) =
             Ok (Rabs (segmentArea d y h - (cur + try_extra st a e p) * h)))
         by (apply ComputeSliceError_nonzero; lra).
  all: set (c := cur + try_extra st a e p) in *.
  all: set (A := segmentArea d y h) in *.
  all: assert (Hch : cur * h + p * h <= c * h) by (unfold c; nra).
  all: assert (Hph : 0 < p * h) by nra.
  all: pose proof (Rle_abs (- (A - c * h))) as Habs;
       rewrite Rabs_Ropp in Habs.
  all: destruct (Rlt_dec (Rabs (A - c * h)) best) as [Hlt | Hge].
  - exfalso. cbn [INR] in HM. lra.
  - exists O. split.
    + split; [intros k Hk; lia |].
      exists best, (Rabs (A - c * h)). cbn [cand_width]. now repeat split.
    + intros [| fuel] Hf; [lia |].
      now apply outside_loop_reject with (e1 := Rabs (A - c * h)).
  - rewrite S_INR in HM.
    destruct (IH c (Rabs (A - c * h)) false) as [n [[Htr Hlast] Hrun]].
    + unfold c. lra.
    + exact Hc.
    + fold A. nra.
    + exists (S n). split.
      * split.
        -- intros [| k] Hk.
           ++ exists best, (Rabs (A - c * h)). cbn [cand_width].
              now repeat split.
           ++ rewrite !cand_width_S. apply Htr. lia.
        -- rewrite !cand_width_S. exact Hlast.
      * intros [| fuel] Hf; [lia |].
        rewrite (outside_loop_accept fuel d y h p cur best _ a e st Hc Hlt).
        rewrite cand_width_S. apply Hrun. lia.
  - exists O. split.
    + split; [intros k Hk; lia |].
      exists best, (Rabs (A - c * h)). cbn [cand_width]. now repeat split.
    + intros [| fuel] Hf; [lia |].
      now apply outside_loop_reject with (e1 := Rabs (A - c * h)).
Qed.

(** Whenever a row gets a width at all, it is a whole number of pips. *)
Lemma quantize_pips (d y h p : R) (a e : bool) (pw : Z * R) :
  0 < p -> quantize d y h p a e = Ok pw ->
  exists n : Z, (0 <= n)%Z /\ pw = (n, IZR n * p).
Proof.
  intros Hp Hq.
  destruct (UnrestrictedFit d y h) as [uw | x |] eqn:Hu;
    [| unfold quantize in Hq; rewrite Hu in Hq; discriminate ..].
  assert (Huw : 0 <= uw).
  { unfold UnrestrictedFit, py_sqrt in Hu.
    destruct (Rlt_dec _ 0); [discriminate |]. cbn [bind] in Hu.
    injection Hu as <-.
    apply Rmult_le_pos; [lra | apply sqrt_pos]. }
  assert (Hn : (0 <= Zfloor (uw / p))%Z).
  { apply Zfloor_lub. cbn [IZR].
    apply Rmult_le_pos; [exact Huw | left; now apply Rinv_0_lt_compat]. }
  rewrite (quantize_ok d y h p uw a e) in Hq by (exact Hu || lra).
  cbv zeta in Hq. injection Hq as <-. destruct a.
  - exists (fst (align_parity e (Zfloor (uw / p)) (IZR (Zfloor (uw / p)) * p) p)).
    split; [now apply align_parity_nonneg |].
    rewrite <- align_parity_width. now destruct (align_parity _ _ _ _).
  - now exists (Zfloor (uw / p)).
Qed.

Lemma UnrestrictedFitByPieceWidth_pips (fuel : nat) (d y h p w : R)
    (a e o : bool) :
  0 < p -> UnrestrictedFitByPieceWidth fuel d y h p a e o = Ok w ->
  exists k : Z, (0 <= k)%Z /\ w = IZR k * p.
Proof.
  intros Hp. unfold UnrestrictedFitByPieceWidth.
  destruct (quantize d y h p a e) as [pw | x |] eqn:Hq; cbn [bind];
    try discriminate.
  destruct (quantize_pips d y h p a e pw Hp Hq) as [n [Hn ->]]. cbn [snd].
  destruct o.
  - destruct (ComputeSliceError d y h (IZR n * p)) as [e0 | x |];
      cbn [bind]; try discriminate.
    unfold ConsiderOutsidePieces. cbv zeta. intros Hrun.
    destruct (outside_loop_pips _ _ _ _ _ _ _ _ _ _ _ Hrun) as [j [Hj ->]].
    exists (n + j)%Z. split; [lia | rewrite plus_IZR; ring].
  - intros H. injection H as <-. now exists n.
Qed.

(** ** One row *)

Lemma UnrestrictedFitByPieceWidth_runs (d y h p : R) (a e o : bool) :
  0 < d -> 0 <= y -> 0 < h -> y + h <= d / 2 -> 0 < p ->
  exists (F : nat) (k : Z),
    (0 <= k)%Z /\
    forall fuel, (F <= fuel)%nat ->
      UnrestrictedFitByPieceWidth fuel d y h p a e o = Ok (IZR k * p).
Proof.
  intros Hd Hy Hh Hyh Hp.
  destruct (quantize_in_disk d y h p a e Hd Hp ltac:(lra)) as [n [Hn Hq]].
  destruct o.
  - assert (Hw : 0 <= IZR n * p).
    { assert (0 <= IZR n) by (apply IZR_le; lia). nra. }
    destruct (ComputeSliceError_defined d y h (IZR n * p) Hd ltac:(lra)
                ltac:(lra)) as [e0 [He0 _]].
    destruct (nat_above
                ((e0 + segmentArea d y h - IZR n * p * h) / (p * h)))
      as [N HN].
    assert (Hph : 0 < p * h) by nra.
    assert (HM : e0 + segmentArea d y h - IZR n * p * h < INR N * (p * h)).
    { apply Rmult_lt_compat_r with (r := p * h) in HN; [| exact Hph].
      unfold Rdiv in HN. rewrite Rmult_assoc, Rinv_l, Rmult_1_r in HN by lra.
      exact HN. }
    destruct (outside_loop_runs d y h p a e Hd ltac:(lra) Hh Hyh Hp N
                (IZR n * p) e0 (negb (truthy (IZR n * p))) Hw He0 HM)
      as [m [_ Hrun]].
    destruct (cand_width_pips a e p m (negb (truthy (IZR n * p))) (IZR n * p))
      as [j [Hj Ej]].
    exists (S N), (n + j)%Z. split; [lia |].
    intros fuel Hf. unfold UnrestrictedFitByPieceWidth.
    rewrite Hq, bind_Ok. cbn [snd]. rewrite He0, bind_Ok.
    unfold ConsiderOutsidePieces. cbv zeta.
    rewrite Hrun by lia. rewrite Ej, plus_IZR. f_equal. ring.
  - exists O, n. split; [exact Hn |]. intros fuel _.
    unfold UnrestrictedFitByPieceWidth. rewrite Hq, bind_Ok. reflexivity.
Qed.

(** With the search switched on, a row's error is at most what it is
    without. *)
Lemma UnrestrictedFitByPieceWidth_outside (fuel : nat) (d y h p : R)
    (a e : bool) (w0 w1 : R) :
  UnrestrictedFitByPieceWidth fuel d y h p a e false = Ok w0 ->
  UnrestrictedFitByPieceWidth fuel d y h p a e true = Ok w1 ->
  exists e0 e1,
    ComputeSliceError d y h w0 = Ok e0 /\
    ComputeSliceError d y h w1 = Ok e1 /\ e1 <= e0.
Proof.
  unfold UnrestrictedFitByPieceWidth.
  destruct (quantize d y h p a e) as [pw | x |]; cbn [bind]; try discriminate.
  intros H0 H1. injection H0 as <-.
  destruct (ComputeSliceError d y h (snd pw)) as [e0 | x |] eqn:He0;
    cbn [bind] in H1; try discriminate.
  unfold ConsiderOutsidePieces in H1. cbv zeta in H1.
  destruct (outside_loop_error _ _ _ _ _ _ _ _ _ _ _ H1 He0) as [e1 [He1 Hle]].
  exists e0, e1. now repeat split.
Qed.

(** ** The rows of a half disk *)

Lemma half_loop_stop (n fuel : nat) (d h p : R) (a e o : bool)
    (y : R) (ws : list (R * R)) (lw : R) :
  d / 2 < y + h ->
  half_loop n fuel d h p a e o y ws lw = Ok (y, ws, lw).
Proof.
  intros Hy. destruct n; cbn [half_loop];
    (destruct (Rle_dec (y + h) (d / 2)); [lra | reflexivity]).
Qed.

Lemma half_loop_step (n fuel : nat) (d h p : R) (a e o : bool)
    (y : R) (ws : list (R * R)) (lw w : R) :
  y + h <= d / 2 ->
  UnrestrictedFitByPieceWidth fuel d y h p a e o = Ok w ->
  half_loop (S n) fuel d h p a e o y ws lw =
  half_loop n fuel d h p a e o (y + h) (ws ++ [(y, w)]) w.
Proof.
  intros Hy Hw. cbn [half_loop].
  destruct (Rle_dec (y + h) (d / 2)); [| lra].
  rewrite Hw, bind_Ok. reflexivity.
Qed.

Lemma half_loop_runs (d h p : R) (a e o : bool) :
  0 < d -> 0 < h -> 0 < p ->
  forall (K : nat) (y : R),
  0 <= y -> d / 2 - y < INR K * h ->
  exists F : nat,
    forall n fuel, (K <= n)%nat -> (F <= fuel)%nat ->
    forall (ws : list (R * R)) (lw : R),
    exists (y' : R) (rows : list (R * R)) (lw' : R),
      half_loop n fuel d h p a e o y ws lw = Ok (y', ws ++ rows, lw') /\
      Forall (row_ok d h p) rows /\
      ((rows = [] /\ y' = y /\ lw' = lw) \/
       (rows <> [] /\ 0 <= y' <= d / 2)).
Proof.
  intros Hd Hh Hp.
  induction K as [| K IH]; intros y Hy HK.
  - exists O. intros n fuel _ _ ws lw. exists y, [], lw.
    cbn [INR] in HK. rewrite app_nil_r.
    split; [apply half_loop_stop; lra |].
    split; [constructor | left; auto].
  - destruct (Rle_dec (y + h) (d / 2)) as [Hin | Hout].
    + destruct (UnrestrictedFitByPieceWidth_runs d y h p a e o
                  Hd Hy Hh Hin Hp) as [F1 [k [Hk Hrow]]].
      rewrite S_INR in HK.
      destruct (IH (y + h) ltac:(lra) ltac:(lra)) as [F2 Hrest].
      exists (Nat.max F1 F2). intros [| n] fuel Hn Hf ws lw; [lia |].
      rewrite (half_loop_step n fuel d h p a e o y ws lw (IZR k * p) Hin)
        by (apply Hrow; lia).
      destruct (Hrest n fuel ltac:(lia) ltac:(lia)
                  (ws ++ [(y, IZR k * p)]) (IZR k * p))
        as [y' [rows [lw' [Hrun [Hall Hcases]]]]].
      exists y', ((y, IZR k * p) :: rows), lw'.
      split; [| split].
      * rewrite Hrun. now rewrite <- app_assoc.
      * constructor; [| exact Hall].
        unfold row_ok, whole_pips; cbn [fst snd].
        split; [lra | split; [lra |]]. now exists k.
      * right. split; [discriminate |].
        destruct Hcases as [[_ [-> _]] | [_ Hb]]; lra.
    + exists O. intros n fuel _ _ ws lw. exists y, [], lw.
      rewrite app_nil_r.
      split; [apply half_loop_stop; lra |].
      split; [constructor | left; auto].
Qed.

(** ** Sums of slice errors *)

Lemma fold_left_Rplus (l : list R) (a : R) :
  fold_left Rplus l a = a + fold_left Rplus l 0.
Proof.
  revert a. induction l as [| x l IH]; intros a; cbn [fold_left].
  - ring.
  - rewrite (IH (a + x)), (IH (0 + x)). ring.
Qed.

Lemma slice_errors_cons (d h y w : R) (t : list (R * R)) (es : list R) :
  slice_errors d h ((y, w) :: t) = Ok es ->
  exists e es', ComputeSliceError d y h w = Ok e /\
                slice_errors d h t = Ok es' /\ es = e :: es'.
Proof.
  cbn [slice_errors].
  destruct (ComputeSliceError d y h w) as [e0 | x |]; cbn [bind];
    try discriminate.
  destruct (slice_errors d h t) as [es' | x |]; cbn [bind]; try discriminate.
  intros H. injection H as <-. now exists e0, es'.
Qed.

Lemma slice_errors_defined (d h : R) (l : list (R * R)) :
  Forall (row_defined d h) l ->
  exists es, slice_errors d h l = Ok es /\ 0 <= fold_left Rplus es 0.
Proof.
  induction 1 as [| [y w] l [e0 [Hc He]] _ [es [Hes Hs]]].
  - exists []. cbn. split; [reflexivity | lra].
  - exists (e0 :: es). cbn [slice_errors fst snd] in *.
    rewrite Hc, Hes. split; [reflexivity |].
    cbn [fold_left]. rewrite fold_left_Rplus. lra.
Qed.

Lemma row_ok_defined (d h p : R) (row : R * R) :
  0 < d -> 0 < h -> row_ok d h p row -> row_defined d h row.
Proof.
  intros Hd Hh [H0 [H1 _]]. destruct row as [y w].
  unfold row_defined. cbn [fst snd] in *.
  apply ComputeSliceError_defined; lra.
Qed.

Lemma row_le_refl (d h : R) (r : R * R) : row_le d h r r.
Proof. intros e0 e1 H0 H1. rewrite H0 in H1. injection H1 as <-. lra. Qed.

Lemma slice_errors_le (d h : R) (l0 l1 : list (R * R)) :
  Forall2 (row_le d h) l0 l1 ->
  forall es0 es1,
  slice_errors d h l0 = Ok es0 -> slice_errors d h l1 = Ok es1 ->
  fold_left Rplus es1 0 <= fold_left Rplus es0 0.
Proof.
  induction 1 as [| [y0 w0] [y1 w1] l0 l1 Hr _ IH]; intros es0 es1 H0 H1.
  - cbn in H0, H1. injection H0 as <-. injection H1 as <-. lra.
  - apply slice_errors_cons in H0. destruct H0 as [e0 [t0 [Hc0 [Ht0 ->]]]].
    apply slice_errors_cons in H1. destruct H1 as [e1 [t1 [Hc1 [Ht1 ->]]]].
    cbn [fold_left].
    rewrite (fold_left_Rplus t1), (fold_left_Rplus t0).
    pose proof (Hr e0 e1 Hc0 Hc1). pose proof (IH t0 t1 Ht0 Ht1). lra.
Qed.

Lemma Forall2_app_single {A : Type} (P : A -> A -> Prop)
    (l0 l1 : list A) (x0 x1 : A) :
  Forall2 P l0 l1 -> P x0 x1 -> Forall2 P (l0 ++ [x0]) (l1 ++ [x1]).
Proof. intros H Hx. apply Forall2_app; [exact H | now constructor]. Qed.

(** The loop visits the same heights with and without the search, and
    row by row the search does not make the error larger. *)
Lemma half_loop_outside (d h p : R) (a e : bool) (fuel : nat) :
  forall (n : nat) (y : R) (ws0 ws1 : list (R * R)) (lw0 lw1 : R)
         (y0 y1 : R) (ws0' ws1' : list (R * R)) (lw0' lw1' : R),
  half_loop n fuel d h p a e false y ws0 lw0 = Ok (y0, ws0', lw0') ->
  half_loop n fuel d h p a e true y ws1 lw1 = Ok (y1, ws1', lw1') ->
  y0 = y1 /\
  exists rows0 rows1,
    ws0' = ws0 ++ rows0 /\ ws1' = ws1 ++ rows1 /\
    Forall2 (row_le d h) rows0 rows1.
Proof.
  induction n as [| n IH]; intros y ws0 ws1 lw0 lw1 y0 y1 ws0' ws1' lw0' lw1';
    cbn [half_loop]; destruct (Rle_dec (y + h) (d / 2)) as [Hin | Hout];
    try discriminate.
  - intros H0 H1. injection H0 as <- <- <-. injection H1 as <- <- <-.
    split; [reflexivity |]. exists [], []. rewrite !app_nil_r.
    repeat split. constructor.
  - destruct (UnrestrictedFitByPieceWidth fuel d y h p a e false)
      as [w0 | x |] eqn:Hw0; cbn [bind]; try discriminate.
    destruct (UnrestrictedFitByPieceWidth fuel d y h p a e true)
      as [w1 | x |] eqn:Hw1; cbn [bind]; try discriminate.
    intros H0 H1.
    destruct (IH _ _ _ _ _ _ _ _ _ _ _ H0 H1)
      as [Ey [rows0 [rows1 [E0 [E1 Hall]]]]].
    split; [exact Ey |].
    exists ((y, w0) :: rows0), ((y, w1) :: rows1).
    rewrite E0, E1, <- !app_assoc. repeat split.
    constructor; [| exact Hall].
    destruct (UnrestrictedFitByPieceWidth_outside _ _ _ _ _ _ _ _ _ Hw0 Hw1)
      as [e0 [e1 [He0 [He1 Hle]]]].
    intros e0' e1' H0' H1'. cbn [fst snd] in *.
    rewrite He0 in H0'. rewrite He1 in H1'.
    injection H0' as <-. injection H1' as <-. exact Hle.
  - intros H0 H1. injection H0 as <- <- <-. injection H1 as <- <- <-.
    split; [reflexivity |]. exists [], []. rewrite !app_nil_r.
    repeat split. constructor.
Qed.

(** ** Runs in which no row fits *)

Lemma UnrestrictedFitHalf_no_rows (fuel : nat) (d h p off : R)
    (a e o : bool) :
  d / 2 < off + h -> UnrestrictedFitHalf fuel d h p off a e o = Ok [].
Proof.
  intros H. unfold UnrestrictedFitHalf.
  rewrite half_loop_stop by exact H. rewrite bind_Ok, truthy_0. reflexivity.
Qed.

Lemma FitCircleSplitMiddle_no_rows (fuel : nat) (d : R) (h : pynum) (p : R)
    (a e o : bool) :
  d / 2 < num_val h ->
  FitCircleSplitMiddle fuel d h p a e o = Ok (Solution [] 0 (2 * 0)).
Proof.
  intros H. unfold FitCircleSplitMiddle. cbv zeta.
  rewrite UnrestrictedFitHalf_no_rows by lra. reflexivity.
Qed.

(** ** Two small facts for the statements *)

Lemma cand_width_last (a e : bool) (p : R) (k : nat) :
  forall (st : bool) (W : R),
  cand_width st a e p W (S k) =
  cand_width st a e p W k +
  try_extra (match k with O => st | S _ => false end) a e p.
Proof.
  induction k as [| k IH]; intros st W.
  - reflexivity.
  - rewrite cand_width_S, IH, <- cand_width_S. now destruct k.
Qed.

Lemma mod2_eqb_even (n : Z) : (n mod 2 =? 0)%Z = Z.even n.
Proof. rewrite Zmod_even. now destruct (Z.even n). Qed.

(** ** Every valid run of the row loop ends *)

Lemma UnrestrictedFitHalf_runs (d h p off : R) (a e o : bool) :
  0 < d -> 0 < h -> 0 < p -> 0 <= off ->
  exists F : nat,
    forall fuel, (F <= fuel)%nat ->
    exists rows,
      UnrestrictedFitHalf fuel d h p off a e o = Ok rows /\
      Forall (row_defined d h) rows /\
      Forall (whole_pips p) rows.
Proof.
  intros Hd Hh Hp Hoff.
  destruct (nat_above ((d / 2 - off) / h)) as [K HK].
  assert (HK' : d / 2 - off < INR K * h).
  { apply Rmult_lt_compat_r with (r := h) in HK; [| exact Hh].
    unfold Rdiv in HK. rewrite Rmult_assoc, Rinv_l, Rmult_1_r in HK by lra.
    exact HK. }
  destruct (half_loop_runs d h p a e o Hd Hh Hp K off Hoff HK') as [F HF].
  exists (Nat.max K F). intros fuel Hf.
  destruct (HF fuel fuel ltac:(lia) ltac:(lia) [] 0)
    as [y' [rows [lw' [Hrun [Hall Hcases]]]]].
  unfold UnrestrictedFitHalf. rewrite Hrun, bind_Ok. cbn [app].
  assert (Hdef : Forall (row_defined d h) rows).
  { eapply Forall_impl; [| exact Hall].
    intros row. now apply row_ok_defined. }
  assert (Hpips : Forall (whole_pips p) rows).
  { eapply Forall_impl; [| exact Hall]. intros row Hrow. apply Hrow. }
  destruct (truthy lw') eqn:Hlw.
  - exists (rows ++ [(y', 0)]). split; [reflexivity |].
    split; apply Forall_app; (split; [assumption |]);
      (constructor; [| constructor]).
    + destruct Hcases as [[_ [_ ->]] | [_ Hy']].
      * rewrite truthy_0 in Hlw. discriminate.
      * exists (capArea d y'). cbn [fst snd]. split.
        -- apply ComputeSliceError_zero; lra.
        -- apply capArea_nonneg; lra.
    + exists 0%Z. cbn [snd]. split; [lia | ring].
  - now exists rows.
Qed.

Lemma FitCircleSplitMiddle_runs (d : R) (h : pynum) (p : R) (a e o : bool) :
  0 < d -> 0 < num_val h -> 0 < p ->
  exists F : nat,
    forall fuel, (F <= fuel)%nat ->
    exists s, FitCircleSplitMiddle fuel d h p a e o = Ok s /\
              0 <= sol_error s.
Proof.
  intros Hd Hh Hp.
  destruct (UnrestrictedFitHalf_runs d (num_val h) p 0 a e o Hd Hh Hp
              ltac:(lra)) as [F HF].
  exists F. intros fuel Hf. destruct (HF fuel Hf) as [rows [Hrows [Hdef _]]].
  destruct (slice_errors_defined d (num_val h) rows Hdef) as [es [Hes Hsum]].
  unfold FitCircleSplitMiddle, ComputeError. cbv zeta.
  rewrite Hrows, bind_Ok, Hes, !bind_Ok.
  eexists. split; [reflexivity |]. cbn [sol_error]. lra.
Qed.

(** ** [FitCircle], call by call *)

Lemma FitCircle_unfold (fuel : nat) (d : R) (h : pynum) (p : R) (o : bool) :
  FitCircle fuel d h p o =
  (s0 <- FitCircleSplitMiddle fuel d h p false false o ;;
   s1 <- FitCircleOffsetMiddleHalfPiece fuel d h p false false o ;;
   s2 <- FitCircleSplitMiddle fuel d h p true true o ;;
   s3 <- FitCircleOffsetMiddleHalfPiece fuel d h p true true o ;;
   s4 <- FitCircleSplitMiddle fuel d h p true false o ;;
   s5 <- FitCircleOffsetMiddleHalfPiece fuel d h p true false o ;;
   ma <- py_min_enum [sol_error s2; sol_error s3; sol_error s4; sol_error s5] ;;
   mu <- py_min_enum [sol_error s0; sol_error s1] ;;
   Ok (Report [(s0, false); (s1, false); (s2, true); (s3, true);
               (s4, true); (s5, true)] ma mu)).
Proof.
  unfold FitCircle, combinations. cbn [fit_all fit].
  destruct (FitCircleSplitMiddle fuel d h p false false o);
    cbn [bind]; try reflexivity.
  destruct (FitCircleOffsetMiddleHalfPiece fuel d h p false false o);
    cbn [bind]; try reflexivity.
  destruct (FitCircleSplitMiddle fuel d h p true true o);
    cbn [bind]; try reflexivity.
  destruct (FitCircleOffsetMiddleHalfPiece fuel d h p true true o);
    cbn [bind]; try reflexivity.
  destruct (FitCircleSplitMiddle fuel d h p true false o);
    cbn [bind]; try reflexivity.
  destruct (FitCircleOffsetMiddleHalfPiece fuel d h p true false o);
    cbn [bind]; reflexivity.
Qed.

Lemma py_min_enum_cons (x : R) (t : list R) :
  py_min_enum (x :: t) = Ok (min_scan (O, x) (combine (seq 1 (length t)) t)).
Proof. reflexivity. Qed.

(** The offset strategy when no full row fits and the search is off. *)
Lemma FitCircleOffsetMiddleHalfPiece_no_rows (fuel : nat) (d : R) (h : pynum)
    (p : R) (a e : bool) (pw : Z * R) (e' : R) :
  d / 2 < num_val (py_half h) + num_val h ->
  quantize d 0 (num_val (py_half h)) p a e = Ok pw ->
  ComputeSliceError d 0 (num_val (py_half h)) p = Ok e' ->
  FitCircleOffsetMiddleHalfPiece fuel d h p a e false =
  Ok (Solution [] (snd pw) (2 * 0 + 2 * e')).
Proof.
  intros Hh Hq He. unfold FitCircleOffsetMiddleHalfPiece. cbv zeta.
  rewrite UnrestrictedFitHalf_no_rows by exact Hh. rewrite bind_Ok.
  unfold UnrestrictedFitByPieceWidth. rewrite Hq, !bind_Ok.
  unfold ComputeError. cbn [slice_errors]. rewrite !bind_Ok.
  rewrite He, bind_Ok. reflexivity.
Qed.

(** ** The least error of a class *)

Lemma min_scan_spec (l : list R) :
  forall (k bi : nat) (bm : R) (i : nat) (m : R),
  min_scan (bi, bm) (combine (seq k (length l)) l) = (i, m) ->
  ((i, m) = (bi, bm) /\ forall x, In x l -> bm <= x) \/
  ((k <= i)%nat /\ nth_error l (i - k) = Some m /\ m < bm /\
   (forall x, In x l -> m <= x) /\
   (forall j x, (j < i - k)%nat -> nth_error l j = Some x -> m < x)).
Proof.
  induction l as [| x t IH]; intros k bi bm i m H.
  - cbn in H. left. split; [now symmetry | intros y []].
  - cbn [length seq combine min_scan snd] in H.
    destruct (Rlt_dec x bm) as [Hlt | Hge].
    + right. destruct (IH (S k) k x i m H)
        as [[E Hall] | [Hk [Hn [Hm [Hall Hfirst]]]]].
      * injection E as -> ->. rewrite Nat.sub_diag. cbn [nth_error].
        repeat split; try lia; try assumption.
        intros y [<- | Hy]; [lra | now apply Hall].
      * replace (i - k)%nat with (S (i - S k)) by lia. cbn [nth_error].
        repeat split; try lia; try lra; try assumption.
        -- intros y [<- | Hy]; [lra | now apply Hall].
        -- intros [| j] y Hj Hy; cbn [nth_error] in Hy.
           ++ injection Hy as <-. exact Hm.
           ++ apply (Hfirst j y); [lia | exact Hy].
    + destruct (IH (S k) bi bm i m H)
        as [[E Hall] | [Hk [Hn [Hm [Hall Hfirst]]]]].
      * left. split; [exact E |].
        intros y [<- | Hy]; [lra | now apply Hall].
      * right. replace (i - k)%nat with (S (i - S k)) by lia.
        cbn [nth_error].
        repeat split; try lia; try lra; try assumption.
        -- intros y [<- | Hy]; [lra | now apply Hall].
        -- intros [| j] y Hj Hy; cbn [nth_error] in Hy.
           ++ injection Hy as <-. lra.
           ++ apply (Hfirst j y); [lia | exact Hy].
Qed.

Lemma py_min_enum_spec (l : list R) (im : nat * R) :
  py_min_enum l = Ok im -> is_first_min im l.
Proof.
  destruct l as [| x t]; [discriminate |].
  rewrite py_min_enum_cons. intros H. injection H as H.
  destruct im as [i m].
  destruct (min_scan_spec t 1 O x i m H)
    as [[E Hall] | [Hk [Hn [Hm [Hall Hfirst]]]]]; unfold is_first_min;
    cbn [fst snd].
  - injection E as -> ->. cbn [nth_error]. repeat split; try lia.
    intros y [<- | Hy]; [lra | now apply Hall].
  - replace i with (S (i - 1)) at 1 by lia. cbn [nth_error].
    repeat split; try assumption.
    + intros y [<- | Hy]; [lra | now apply Hall].
    + intros [| j] y Hj Hy; cbn [nth_error] in Hy.
      * injection Hy as <-. exact Hm.
      * apply (Hfirst j y); [lia | exact Hy].
Qed.

(** [FitCircle] on diameter 3 with the defaults and the search off. *)
Lemma FitCircle_diameter_3 :
  exists rep, FitCircle 1 3 (PyInt 2) 5 false = Ok rep.
Proof.
  assert (Hoff : forall a e, exists s,
            FitCircleOffsetMiddleHalfPiece 1 3 (PyInt 2) 5 a e false = Ok s).
  { intros a e.
    destruct (quantize_in_disk 3 0 (num_val (py_half (PyInt 2))) 5 a e)
      as [n [_ Hq]]; try (cbn; lra).
    eexists. eapply FitCircleOffsetMiddleHalfPiece_no_rows.
    - cbn. lra.
    - exact Hq.
    - apply ComputeSliceError_nonzero; cbn; lra. }
  destruct (Hoff false false) as [s1 H1].
  destruct (Hoff true true) as [s3 H3].
  destruct (Hoff true false) as [s5 H5].
  rewrite FitCircle_unfold.
  rewrite !FitCircleSplitMiddle_no_rows by (cbn; lra).
  rewrite H1, H3, H5, !bind_Ok, !py_min_enum_cons, !bind_Ok.
  eexists. reflexivity.
Qed.

(** ** With and without the outside search *)

Lemma truthy_true (x : R) : truthy x = true -> x <> 0.
Proof. unfold truthy. now destruct (Req_dec_T x 0). Qed.

Lemma truthy_false (x : R) : truthy x = false -> x = 0.
Proof. unfold truthy. now destruct (Req_dec_T x 0). Qed.

Lemma py_div_inv (a b q : R) : py_div a b = Ok q -> q = a / b.
Proof.
  unfold py_div. destruct (Req_dec_T b 0); [discriminate |].
  intros H. now injection H as <-.
Qed.

Lemma py_acos_inv (x t : R) : py_acos x = Ok t -> t = acos x.
Proof.
  unfold py_acos. destruct (Rlt_dec x (-1)); [discriminate |].
  destruct (Rlt_dec 1 x); [discriminate |].
  intros H. now injection H as <-.
Qed.

Lemma py_sqrt_inv (x s : R) : py_sqrt x = Ok s -> s = sqrt x.
Proof.
  unfold py_sqrt. destruct (Rlt_dec x 0); [discriminate |].
  intros H. now injection H as <-.
Qed.

(** Whatever [ComputeSliceError] returns is the closed form, with no
    assumption on where the row stands. *)
Lemma ComputeSliceError_zero_inv (d y h e0 : R) :
  ComputeSliceError d y h 0 = Ok e0 -> e0 = capArea d y.
Proof.
  unfold ComputeSliceError. cbv zeta. rewrite truthy_0.
  destruct (py_div y (d / 2)) as [q | |] eqn:Hq; cbn [bind]; try discriminate.
  destruct (py_acos q) as [a1 | |] eqn:Ha; cbn [bind]; try discriminate.
  destruct (py_sqrt (d / 2 * (d / 2) - y * y)) as [s1 | |] eqn:Hs;
    cbn [bind]; try discriminate.
  intros H. injection H as <-.
  apply py_div_inv in Hq. apply py_acos_inv in Ha. apply py_sqrt_inv in Hs.
  subst. reflexivity.
Qed.

Lemma ComputeSliceError_nonzero_inv (d y h w e0 : R) :
  w <> 0 -> ComputeSliceError d y h w = Ok e0 ->
  e0 = Rabs (segmentArea d y h - w * h).
Proof.
  intros Hw. unfold ComputeSliceError. cbv zeta.
  rewrite truthy_nonzero by exact Hw.
  destruct (py_div y (d / 2)) as [q1 | |] eqn:Hq1; cbn [bind];
    try discriminate.
  destruct (py_acos q1) as [a1 | |] eqn:Ha1; cbn [bind]; try discriminate.
  destruct (py_div (y + h) (d / 2)) as [q2 | |] eqn:Hq2; cbn [bind];
    try discriminate.
  destruct (py_acos q2) as [a2 | |] eqn:Ha2; cbn [bind]; try discriminate.
  destruct (py_sqrt (d / 2 * (d / 2) - y * y)) as [s1 | |] eqn:Hs1;
    cbn [bind]; try discriminate.
  destruct (py_sqrt (d / 2 * (d / 2) - (y + h) * (y + h))) as [s2 | |] eqn:Hs2;
    cbn [bind]; try discriminate.
  intros H. injection H as <-.
  apply py_div_inv in Hq1, Hq2. apply py_acos_inv in Ha1, Ha2.
  apply py_sqrt_inv in Hs1, Hs2. subst. reflexivity.
Qed.

Lemma slice_errors_app (d h : R) (l1 l2 : list (R * R)) (es : list R) :
  slice_errors d h (l1 ++ l2) = Ok es ->
  exists es1 es2,
    slice_errors d h l1 = Ok es1 /\ slice_errors d h l2 = Ok es2 /\
    es = es1 ++ es2.
Proof.
  revert es. induction l1 as [| [y w] l1 IH]; intros es H.
  - exists [], es. now repeat split.
  - cbn [app] in H. apply slice_errors_cons in H.
    destruct H as [e0 [es' [Hc [Ht ->]]]].
    destruct (IH _ Ht) as [es1 [es2 [H1 [H2 ->]]]].
    exists (e0 :: es1), es2. cbn [slice_errors]. rewrite Hc, H1.
    now repeat split.
Qed.

Lemma fold_left_Rplus_app (l1 l2 : list R) :
  fold_left Rplus (l1 ++ l2) 0 =
  fold_left Rplus l1 0 + fold_left Rplus l2 0.
Proof. rewrite fold_left_app. apply fold_left_Rplus. Qed.

(** The search adds whole pips to the width it starts from. *)
Lemma UnrestrictedFitByPieceWidth_adds_pips (fuel : nat) (d y h p w0 w1 : R)
    (a e : bool) :
  UnrestrictedFitByPieceWidth fuel d y h p a e false = Ok w0 ->
  UnrestrictedFitByPieceWidth fuel d y h p a e true = Ok w1 ->
  exists j : Z, (0 <= j)%Z /\ w1 = w0 + IZR j * p.
Proof.
  unfold UnrestrictedFitByPieceWidth.
  destruct (quantize d y h p a e) as [pw | x |]; cbn [bind]; try discriminate.
  intros H0 H1. injection H0 as <-.
  destruct (ComputeSliceError d y h (snd pw)) as [e0 | x |];
    cbn [bind] in H1; try discriminate.
  unfold ConsiderOutsidePieces in H1. cbv zeta in H1.
  exact (outside_loop_pips _ _ _ _ _ _ _ _ _ _ _ H1).
Qed.

Lemma last_cons_default {A : Type} (a b : A) (l : list A) :
  last (a :: l) b = last l a.
Proof.
  revert a b. induction l as [| x l IH]; intros a b; [reflexivity |].
  change (last (a :: x :: l) b) with (last (x :: l) b).
  now rewrite (IH x b), (IH x a).
Qed.

Lemma last_map_snd (l : list (R * R)) (r : R * R) :
  snd (last l r) = last (map snd l) (snd r).
Proof.
  induction l as [| x l IH]; [reflexivity |].
  destruct l as [| z l]; [reflexivity |]. exact IH.
Qed.

(** What the row loop leaves behind: the rows it appended stand at the
    heights [y], [y + h], [y + 2 h], ..., each is inside the disk and
    holds the width the row solver returns there; the loop stops at the
    first height from which a row would leave the disk, and
    [last_width] is the width of the last row appended. *)
Lemma half_loop_rows (d h p : R) (a e o : bool) (fuel : nat) :
  forall (n : nat) (y : R) (ws : list (R * R)) (lw : R)
         (y' : R) (ws' : list (R * R)) (lw' : R),
  half_loop n fuel d h p a e o y ws lw = Ok (y', ws', lw') ->
  exists rows,
    ws' = ws ++ rows /\
    y' = y + INR (length rows) * h /\
    d / 2 < y' + h /\
    lw' = last (map snd rows) lw /\
    forall i row, nth_error rows i = Some row ->
      fst row = y + INR i * h /\
      fst row + h <= d / 2 /\
      UnrestrictedFitByPieceWidth fuel d (fst row) h p a e o = Ok (snd row).
Proof.
  induction n as [| n IH]; intros y ws lw y' ws' lw';
    cbn [half_loop]; destruct (Rle_dec (y + h) (d / 2)) as [Hin | Hout];
    try discriminate.
  - intros H. injection H as <- <- <-. exists [].
    rewrite app_nil_r. cbn [length INR map last].
    split; [reflexivity |]. split; [ring |]. split; [lra |].
    split; [reflexivity |]. intros [| i] row Hi; discriminate.
  - destruct (UnrestrictedFitByPieceWidth fuel d y h p a e o)
      as [w | x |] eqn:Hw; cbn [bind]; try discriminate.
    intros H. destruct (IH _ _ _ _ _ _ H)
      as [rows [-> [-> [Hstop [-> Hrows]]]]].
    exists ((y, w) :: rows). rewrite <- app_assoc.
    split; [reflexivity |]. split.
    { cbn [length]. rewrite S_INR. ring. }
    split; [exact Hstop |]. split.
    { cbn [map snd]. now rewrite last_cons_default. }
    intros [| i] row Hi; cbn [nth_error] in Hi.
    + injection Hi as <-. cbn [fst snd INR]. repeat split; try lra.
      exact Hw.
    + destruct (Hrows i row Hi) as [Hy [Hin' Hrun]].
      repeat split; try assumption. rewrite Hy, S_INR. ring.
  - intros H. injection H as <- <- <-. exists [].
    rewrite app_nil_r. cbn [length INR map last].
    split; [reflexivity |]. split; [ring |]. split; [lra |].
    split; [reflexivity |]. intros [| i] row Hi; discriminate.
Qed.

Lemma last_snoc_snd (l : list (R * R)) (x : R * R) (lw : R) :
  last (map snd (l ++ [x])) lw = snd x.
Proof. rewrite map_app. cbn [map]. apply last_last. Qed.

Lemma nth_error_snoc {A : Type} (l : list A) (x : A) :
  nth_error (l ++ [x]) (length l) = Some x.
Proof. rewrite nth_error_app2 by lia. now rewrite Nat.sub_diag. Qed.

(** The sums of the slice errors of the two row sequences.  Row by row
    the search does not raise the error; the closing row is the only
    place where the sequence with the search can be charged more. *)
Lemma UnrestrictedFitHalf_outside_total (fuel : nat) (d h p off : R)
    (a e : bool) (rows0 rows1 : list (R * R)) (es0 es1 : list R) :
  0 < h -> 0 < p ->
  UnrestrictedFitHalf fuel d h p off a e false = Ok rows0 ->
  UnrestrictedFitHalf fuel d h p off a e true = Ok rows1 ->
  slice_errors d h rows0 = Ok es0 ->
  slice_errors d h rows1 = Ok es1 ->
  fold_left Rplus es1 0 <=
  fold_left Rplus es0 0 + closing_excess d h rows0 rows1.
Proof.
  intros Hh Hp. unfold UnrestrictedFitHalf.
  destruct (half_loop fuel fuel d h p a e false off [] 0)
    as [[[y0 ws0] lw0] | |] eqn:H0; cbn [bind]; try discriminate.
  destruct (half_loop fuel fuel d h p a e true off [] 0)
    as [[[y1 ws1] lw1] | |] eqn:H1; cbn [bind]; try discriminate.
  destruct (half_loop_outside d h p a e fuel _ _ _ _ _ _ _ _ _ _ _ _ H0 H1)
    as [<- [r0 [r1 [E0 [E1 Hall]]]]].
  cbn [app] in E0, E1. subst ws0 ws1.
  destruct (half_loop_rows d h p a e false fuel _ _ _ _ _ _ _ H0)
    as [b0 [Eb0 [_ [_ [Elw0 Hrows0]]]]].
  destruct (half_loop_rows d h p a e true fuel _ _ _ _ _ _ _ H1)
    as [b1 [Eb1 [Ey1 [_ [Elw1 Hrows1]]]]].
  cbn [app] in Eb0, Eb1. subst b0 b1.
  pose proof (Forall2_length Hall) as Hlen.
  (* the last rows of the two loops, when there are any *)
  assert (Hlast : r1 <> [] ->
            exists b0 b1 y w0 w1,
              r0 = b0 ++ [(y, w0)] /\ r1 = b1 ++ [(y, w1)] /\
              Forall2 (row_le d h) b0 b1 /\
              lw0 = w0 /\ lw1 = w1 /\ y0 = y + h /\
              0 <= w0 <= w1).
  { intros Hne. destruct (exists_last Hne) as [b1 [[y w1] ->]].
    apply Forall2_app_inv_r in Hall.
    destruct Hall as [b0 [c0 [Hb [Hc ->]]]].
    inversion Hc as [| x0 x1 l0 l1 _ Hnil]; subst.
    inversion Hnil; subst. destruct x0 as [y' w0].
    pose proof (Forall2_length Hb) as Hlb.
    destruct (Hrows0 _ _ (nth_error_snoc b0 (y', w0))) as [Ey0 [_ Hw0]].
    destruct (Hrows1 _ _ (nth_error_snoc b1 (y, w1))) as [Ey' [_ Hw1]].
    cbn [fst snd] in *.
    assert (Eyy : y' = y) by (rewrite Ey0, Ey', Hlb; reflexivity).
    clear Ey0. subst y'.
    exists b0, b1, y, w0, w1.
    split; [reflexivity |]. split; [reflexivity |]. split; [exact Hb |].
    rewrite !last_snoc_snd. cbn [snd].
    split; [reflexivity |]. split; [reflexivity |]. split.
    { rewrite Ey', length_app. cbn [length].
      rewrite Nat.add_1_r, S_INR. ring. }
    destruct (UnrestrictedFitByPieceWidth_pips _ _ _ _ _ _ _ _ _ Hp Hw0)
      as [k [Hk Ek]].
    destruct (UnrestrictedFitByPieceWidth_adds_pips _ _ _ _ _ _ _ _ _ Hw0 Hw1)
      as [j [Hj Ej]].
    assert (0 <= IZR k) by (apply IZR_le; lia).
    assert (0 <= IZR j) by (apply IZR_le; lia).
    split; nra. }
  assert (Hnil : r1 = [] -> lw0 = 0 /\ lw1 = 0).
  { intros ->. inversion Hall; subst. now split. }
  unfold closing_excess.
  destruct (truthy lw0) eqn:T0, (truthy lw1) eqn:T1; intros R0 R1;
    injection R0 as <-; injection R1 as <-.
  - (* both sequences are closed *)
    rewrite !length_app, Hlen, Nat.eqb_refl.
    pose proof (slice_errors_le d h _ _
                  (Forall2_app_single _ _ _ _ _ Hall (row_le_refl d h (y0, 0))))
      as Hle.
    intros S0 S1. pose proof (Hle _ _ S0 S1). lra.
  - (* only the sequence without the search is closed: impossible *)
    exfalso. apply truthy_true in T0. apply truthy_false in T1.
    assert (Hne : r1 <> [])
      by (intros Er; destruct (Hnil Er); contradiction).
    destruct (Hlast Hne)
      as [b0 [b1 [y [w0 [w1 [_ [_ [_ [L0 [L1 [_ Hw]]]]]]]]]]].
    apply T0. lra.
  - (* the search widened a last row of width zero *)
    apply truthy_false in T0. apply truthy_true in T1.
    assert (Hne : r1 <> [])
      by (intros Er; destruct (Hnil Er); contradiction).
    destruct (Hlast Hne)
      as [b0 [b1 [y [w0 [w1 [-> [-> [Hb [L0 [L1 [Ey Hw]]]]]]]]]]].
    rewrite L0 in T0. rewrite L1 in T1. clear L0 L1. subst w0.
    pose proof (Forall2_length Hb) as Hlb.
    rewrite !length_app. cbn [length].
    replace (length b0 + 1 =? length b1 + 1 + 1)%nat with false
      by (symmetry; apply Nat.eqb_neq; lia).
    replace (length b0 + 1 - 1)%nat with (length b1) by lia.
    rewrite <- app_assoc. cbn [app].
    replace (nth_error (b1 ++ [(y, w1); (y0, 0)]) (length b1))
      with (Some (y, w1))
      by (rewrite nth_error_app2 by lia; now rewrite Nat.sub_diag).
    intros S0 S1.
    apply slice_errors_app in S0. destruct S0 as [f0 [g0 [F0 [G0 ->]]]].
    apply slice_errors_app in S1. destruct S1 as [f1 [g1 [F1 [G1 ->]]]].
    apply slice_errors_cons in G0. destruct G0 as [c0 [t0 [C0 [T0' ->]]]].
    cbn [slice_errors] in T0'. injection T0' as <-.
    apply slice_errors_cons in G1. destruct G1 as [c1 [t1 [C1 [T1' ->]]]].
    apply slice_errors_cons in T1'. destruct T1' as [c2 [t2 [C2 [T2' ->]]]].
    cbn [slice_errors] in T2'. injection T2' as <-.
    apply ComputeSliceError_zero_inv in C0.
    apply ComputeSliceError_nonzero_inv in C1; [| exact T1].
    apply ComputeSliceError_zero_inv in C2. subst c0 c1 c2.
    pose proof (slice_errors_le d h b0 b1 Hb f0 f1 F0 F1) as Hle.
    rewrite !fold_left_Rplus_app. cbn [fold_left].
    pose proof (segmentArea_caps d y h) as Hc. rewrite <- Ey in Hc.
    set (A := segmentArea d y h) in *.
    pose proof (Rmax_l 0 (w1 * h - 2 * A)).
    pose proof (Rmax_r 0 (w1 * h - 2 * A)).
    assert (0 <= w1 * h) by nra.
    assert (Rabs (A - w1 * h) <= A + Rmax 0 (w1 * h - 2 * A)).
    { unfold Rabs. destruct (Rcase_abs (A - w1 * h)); lra. }
    lra.
  - (* neither sequence is closed *)
    rewrite Hlen, Nat.eqb_refl.
    intros S0 S1. pose proof (slice_errors_le d h _ _ Hall _ _ S0 S1). lra.
Qed.

(** ** Runs with a single full row *)

Lemma UnrestrictedFitByPieceWidth_unaligned (fuel : nat) (d y h p uw : R)
    (e o : bool) :
  p <> 0 -> UnrestrictedFit d y h = Ok uw ->
  UnrestrictedFitByPieceWidth fuel d y h p false e o =
  if o then
    in_error <- ComputeSliceError d y h (IZR (Zfloor (uw / p)) * p) ;;
    ConsiderOutsidePieces fuel d y h p in_error (IZR (Zfloor (uw / p)) * p)
      false e
  else Ok (IZR (Zfloor (uw / p)) * p).
Proof.
  intros Hp Hu. unfold UnrestrictedFitByPieceWidth.
  rewrite (quantize_ok d y h p uw false e Hp Hu). reflexivity.
Qed.

Lemma UnrestrictedFitHalf_one_row (fuel : nat) (d h p off w : R)
    (a e o : bool) :
  off + h <= d / 2 -> d / 2 < off + h + h ->
  UnrestrictedFitByPieceWidth (S fuel) d off h p a e o = Ok w ->
  UnrestrictedFitHalf (S fuel) d h p off a e o =
  Ok (if truthy w then [(off, w); (off + h, 0)] else [(off, w)]).
Proof.
  intros Hin Hout Hw. unfold UnrestrictedFitHalf.
  rewrite (half_loop_step fuel (S fuel) d h p a e o off [] 0 w Hin Hw).
  rewrite half_loop_stop by exact Hout. rewrite bind_Ok. cbn [app].
  now destruct (truthy w).
Qed.

(** The disk of diameter 10 and its band between the heights 0 and 3. *)

Lemma chord_10_3 : UnrestrictedFit 10 0 3 = Ok 8.
Proof.
  rewrite UnrestrictedFit_ok by lra. f_equal.
  replace ((10 / 2) ^ 2 - (0 + 3) ^ 2) with (4 * 4) by field.
  rewrite sqrt_square by lra. ring.
Qed.

Lemma acos_three_fifths : PI / 2 - 7 / 10 <= acos (3 / 5) <= PI / 2 - 3 / 5.
Proof.
  pose proof PI2_1 as Hpi. split.
  - apply acos_ge_of_cos; try lra.
    rewrite cos_shift.
    pose proof (sin_ge_cubic (7 / 10) ltac:(lra)). lra.
  - apply acos_le_half_pi_minus. lra.
Qed.

Lemma segmentArea_10_0_3 : 27 <= segmentArea 10 0 3 <= 59 / 2.
Proof.
  unfold segmentArea. cbv zeta.
  replace (0 / (10 / 2)) with 0 by field.
  replace ((0 + 3) / (10 / 2)) with (3 / 5) by field.
  replace (10 / 2 * (10 / 2) - (0 + 3) * (0 + 3)) with (4 * 4) by field.
  rewrite sqrt_square by lra. rewrite acos_0.
  pose proof acos_three_fifths. lra.
Qed.

Lemma capArea_10_0 : capArea 10 0 = 25 / 2 * PI.
Proof.
  unfold capArea. cbv zeta.
  replace (0 / (10 / 2)) with 0 by field. rewrite acos_0. field.
Qed.

(** Split at the equator, unaligned, diameter 10, piece height 3, pip
    width 20, without the search: the one row has width 0 and is charged
    the half disk. *)
Lemma split_10_3_20_inside :
  FitCircleSplitMiddle 3 10 (PyInt 3) 20 false false false =
  Ok (Solution [(0, 0)] 0 (2 * (0 + capArea 10 0))).
Proof.
  assert (Hw : UnrestrictedFitByPieceWidth 3 10 0 3 20 false false false =
               Ok 0).
  { rewrite (UnrestrictedFitByPieceWidth_unaligned 3 10 0 3 20 8)
      by (lra || apply chord_10_3).
    rewrite (Zfloor_eq 0 (8 / 20)) by lra. f_equal. ring. }
  unfold FitCircleSplitMiddle. cbv zeta. cbn [num_val].
  rewrite (UnrestrictedFitHalf_one_row 2 10 3 20 0 0) by (lra || exact Hw).
  rewrite truthy_0, bind_Ok.
  unfold ComputeError. cbn [slice_errors].
  rewrite ComputeSliceError_zero by lra. reflexivity.
Qed.

(** The same run with the search: the row is widened to one pip of 20
    and the closing row at height 3 is added. *)
Lemma split_10_3_20_outside :
  FitCircleSplitMiddle 3 10 (PyInt 3) 20 false false true =
  Ok (Solution [(0, 20); (3, 0)] 0
        (2 * (0 + (60 - segmentArea 10 0 3) + capArea 10 3))).
Proof.
  pose proof segmentArea_10_0_3 as HA.
  pose proof PI2_3_2 as Hpi.
  assert (He1 : ComputeSliceError 10 0 3 20 = Ok (60 - segmentArea 10 0 3)).
  { rewrite ComputeSliceError_nonzero by lra. f_equal.
    rewrite Rabs_left by lra. ring. }
  assert (He2 : ComputeSliceError 10 0 3 40 = Ok (120 - segmentArea 10 0 3)).
  { rewrite ComputeSliceError_nonzero by lra. f_equal.
    rewrite Rabs_left by lra. ring. }
  assert (Hw : UnrestrictedFitByPieceWidth 3 10 0 3 20 false false true =
               Ok 20).
  { rewrite (UnrestrictedFitByPieceWidth_unaligned 3 10 0 3 20 8)
      by (lra || apply chord_10_3).
    rewrite (Zfloor_eq 0 (8 / 20)) by lra.
    replace (0 * 20) with 0 by ring.
    rewrite ComputeSliceError_zero by lra. rewrite bind_Ok.
    unfold ConsiderOutsidePieces. cbv zeta. rewrite truthy_0. cbn [negb].
    rewrite (outside_loop_accept 2 10 0 3 20 0 _ (60 - segmentArea 10 0 3));
      cbn [try_extra andb].
    - rewrite (outside_loop_reject 1 10 0 3 20 _ _
                 (120 - segmentArea 10 0 3)); cbn [try_extra].
      + f_equal. ring.
      + replace (0 + 20 + 20) with 40 by ring. exact He2.
      + lra.
    - replace (0 + 20) with 20 by ring. exact He1.
    - rewrite capArea_10_0. lra. }
  unfold FitCircleSplitMiddle. cbv zeta. cbn [num_val].
  rewrite (UnrestrictedFitHalf_one_row 2 10 3 20 0 20) by (lra || exact Hw).
  rewrite truthy_nonzero by lra. rewrite bind_Ok.
  unfold ComputeError. cbn [slice_errors].
  rewrite He1, bind_Ok.
  replace (0 + 3) with 3 by ring.
  rewrite ComputeSliceError_zero by lra. reflexivity.
Qed.

(** Piece height 5 and pip width 5 on the same disk: the one row reaches
    the top of the disk, where the chord is 0; the band below it is the
    half disk. *)
Lemma chord_10_5 : UnrestrictedFit 10 0 5 = Ok 0.
Proof.
  rewrite UnrestrictedFit_ok by lra. f_equal.
  replace ((10 / 2) ^ 2 - (0 + 5) ^ 2) with 0 by field.
  rewrite sqrt_0. ring.
Qed.

Lemma segmentArea_10_0_5 : segmentArea 10 0 5 = 25 / 2 * PI.
Proof.
  rewrite segmentArea_caps. replace (0 + 5) with (10 / 2) by field.
  rewrite capArea_top by lra. rewrite capArea_10_0. ring.
Qed.

(** Without the search the row has width 0 and is charged the half
    disk. *)
Lemma split_10_5_5_inside :
  FitCircleSplitMiddle 3 10 (PyInt 5) 5 false false false =
  Ok (Solution [(0, 0)] 0 (2 * (0 + capArea 10 0))).
Proof.
  assert (Hw : UnrestrictedFitByPieceWidth 3 10 0 5 5 false false false =
               Ok 0).
  { rewrite (UnrestrictedFitByPieceWidth_unaligned 3 10 0 5 5 0)
      by (lra || apply chord_10_5).
    rewrite (Zfloor_eq 0 (0 / 5)) by lra. f_equal. ring. }
  unfold FitCircleSplitMiddle. cbv zeta. cbn [num_val].
  rewrite (UnrestrictedFitHalf_one_row 2 10 5 5 0 0) by (lra || exact Hw).
  rewrite truthy_0, bind_Ok.
  unfold ComputeError. cbn [slice_errors].
  rewrite ComputeSliceError_zero by lra. reflexivity.
Qed.

(** With the search the row is widened twice, to two pips, and the
    closing row is added at the top of the disk. *)
Lemma split_10_5_5_outside :
  FitCircleSplitMiddle 3 10 (PyInt 5) 5 false false true =
  Ok (Solution [(0, 10); (5, 0)] 0
        (2 * (0 + (50 - 25 / 2 * PI) + capArea 10 5))).
Proof.
  pose proof segmentArea_10_0_5 as HA.
  pose proof PI2_3_2 as Hlo. pose proof PI_4 as Hhi.
  assert (He1 : ComputeSliceError 10 0 5 5 = Ok (25 / 2 * PI - 25)).
  { rewrite ComputeSliceError_nonzero by lra. f_equal.
    rewrite HA, Rabs_right by lra. ring. }
  assert (He2 : ComputeSliceError 10 0 5 10 = Ok (50 - 25 / 2 * PI)).
  { rewrite ComputeSliceError_nonzero by lra. f_equal.
    rewrite HA, Rabs_left1 by lra. ring. }
  assert (He3 : ComputeSliceError 10 0 5 15 = Ok (75 - 25 / 2 * PI)).
  { rewrite ComputeSliceError_nonzero by lra. f_equal.
    rewrite HA, Rabs_left1 by lra. ring. }
  assert (Hw : UnrestrictedFitByPieceWidth 3 10 0 5 5 false false true =
               Ok 10).
  { rewrite (UnrestrictedFitByPieceWidth_unaligned 3 10 0 5 5 0)
      by (lra || apply chord_10_5).
    rewrite (Zfloor_eq 0 (0 / 5)) by lra.
    replace (0 * 5) with 0 by ring.
    rewrite ComputeSliceError_zero by lra. rewrite bind_Ok.
    unfold ConsiderOutsidePieces. cbv zeta. rewrite truthy_0. cbn [negb].
    rewrite (outside_loop_accept 2 10 0 5 5 0 _ (25 / 2 * PI - 25));
      cbn [try_extra andb].
    - rewrite (outside_loop_accept 1 10 0 5 5 _ _ (50 - 25 / 2 * PI));
        cbn [try_extra].
      + rewrite (outside_loop_reject 0 10 0 5 5 _ _ (75 - 25 / 2 * PI));
          cbn [try_extra].
        * f_equal. ring.
        * replace (0 + 5 + 5 + 5) with 15 by ring. exact He3.
        * lra.
      + replace (0 + 5 + 5) with 10 by ring. exact He2.
      + lra.
    - replace (0 + 5) with 5 by ring. exact He1.
    - rewrite capArea_10_0. lra. }
  unfold FitCircleSplitMiddle. cbv zeta. cbn [num_val].
  rewrite (UnrestrictedFitHalf_one_row 2 10 5 5 0 10) by (lra || exact Hw).
  rewrite truthy_nonzero by lra. rewrite bind_Ok.
  unfold ComputeError. cbn [slice_errors].
  rewrite He2, bind_Ok.
  replace (0 + 5) with 5 by ring.
  rewrite ComputeSliceError_zero by lra. reflexivity.
Qed.

(** ** The offset strategy on diameter 12 *)

Lemma sqrt_between (a b x : R) :
  0 <= a -> 0 <= b -> a * a <= x < b * b -> a <= sqrt x < b.
Proof.
  intros Ha Hb [Hl Hu]. split.
  - rewrite <- (sqrt_square a Ha). apply sqrt_le_1_alt. exact Hl.
  - rewrite <- (sqrt_square b Hb). apply sqrt_lt_1_alt. nra.
Qed.

Lemma row_width_unaligned (fuel : nat) (d y h p x : R) (n : Z) (e : bool) :
  0 < d -> 0 < p -> - (d / 2) <= y + h <= d / 2 ->
  (d / 2) ^ 2 - (y + h) ^ 2 = x ->
  IZR n * p / 2 <= sqrt x < (IZR n + 1) * p / 2 ->
  UnrestrictedFitByPieceWidth fuel d y h p false e false = Ok (IZR n * p).
Proof.
  intros Hd Hp Hyh Hx Hs.
  rewrite (UnrestrictedFitByPieceWidth_unaligned fuel d y h p
             (2 * sqrt x)) by (lra || (rewrite <- Hx; apply UnrestrictedFit_ok; lra)).
  rewrite (Zfloor_eq n); [reflexivity |].
  split.
  - apply Rmult_le_reg_r with p; [exact Hp |].
    replace (2 * sqrt x / p * p) with (2 * sqrt x) by (field; lra). lra.
  - apply Rmult_lt_reg_r with p; [exact Hp |].
    replace (2 * sqrt x / p * p) with (2 * sqrt x) by (field; lra). lra.
Qed.

Lemma segmentArea_12_0_1 : 11 <= segmentArea 12 0 1.
Proof.
  unfold segmentArea. cbv zeta.
  replace (0 / (12 / 2)) with 0 by field.
  replace ((0 + 1) / (12 / 2)) with (1 / 6) by field.
  replace (12 / 2 * (12 / 2) - (0 + 1) * (0 + 1)) with 35 by field.
  rewrite acos_0.
  pose proof (acos_le_half_pi_minus (1 / 6) ltac:(lra)).
  pose proof (sqrt_between 5 6 35 ltac:(lra) ltac:(lra) ltac:(lra)).
  lra.
Qed.

(** ** The parity block after the quantization *)

(** The aligned quantization is the parity block applied to the count
    and the width of the unaligned one. *)
Lemma quantize_aligned (d y h p : R) (e e' : bool) (c : Z) (u : R) :
  quantize d y h p false e' = Ok (c, u) ->
  quantize d y h p true e = Ok (align_parity e c u p).
Proof.
  unfold quantize.
  destruct (UnrestrictedFit d y h) as [uw | |]; cbn [bind]; try discriminate.
  destruct (py_fmod uw p) as [m | |]; cbn [bind]; try discriminate.
  destruct (py_div (uw - m) p) as [q | |]; cbn [bind]; try discriminate.
  intros H. injection H as <- <-. reflexivity.
Qed.

Lemma align_parity_cases (e : bool) (n : Z) (u p : R) :
  (Z.even n = e -> align_parity e n u p = (n, u)) /\
  (Z.even n <> e -> (0 < n)%Z ->
   align_parity e n u p = ((n - 1)%Z, u - p)) /\
  align_parity e 0 u p = (0%Z, u).
Proof.
  unfold align_parity. rewrite mod2_eqb_even.
  repeat split.
  - intros <-. now destruct (Z.even n).
  - intros Hpar Hn.
    assert (Hz : (n =? 0)%Z = false) by (apply Z.eqb_neq; lia).
    destruct (Z.even n), e; cbn [andb orb negb]; try congruence;
      now rewrite Hz.
  - now destruct e.
Qed.

(** * The claims *)

(** C1 on the disk of diameter 12 with the default piece height 2 and
    pip width 5, unaligned, the search off.  The offset strategy returns
    the rows (1, 10), (3, 5), (5, 0) and the middle width 10, but its
    error is [2 * totalError(rows) + 2 * sliceError(0, 1, 5)], computed
    with the pip width where the claim has the middle width: it is 10
    more than [2 * totalError(rows) + 2 * sliceError(0, 1, 10)]. *)
Theorem offset_error_uses_pip_width :
  exists s tot mid pip,
    FitCircleOffsetMiddleHalfPiece 3 12 (PyInt 2) 5 false false false = Ok s /\
    sol_rows s = [(1, 10); (3, 5); (5, 0)] /\
    sol_middle s = 10 /\
    UnrestrictedFitByPieceWidth 3 12 0 (num_val (py_half (PyInt 2))) 5
      false false false = Ok (sol_middle s) /\
    ComputeError 12 (sol_rows s) (num_val (PyInt 2)) = Ok tot /\
    ComputeSliceError 12 0 (num_val (py_half (PyInt 2))) (sol_middle s) =
      Ok mid /\
    ComputeSliceError 12 0 (num_val (py_half (PyInt 2))) 5 = Ok pip /\
    sol_error s = 2 * tot + 2 * pip /\
    sol_error s = 2 * tot + 2 * mid + 10 /\
    sol_error s <> 2 * tot + 2 * mid.
Proof.
  pose proof segmentArea_12_0_1 as HA.
  change (num_val (py_half (PyInt 2))) with 1.
  change (num_val (PyInt 2)) with 2.
  assert (Hr1 : UnrestrictedFitByPieceWidth 3 12 1 2 5 false false false =
                Ok 10).
  { rewrite (row_width_unaligned 3 12 1 2 5 27 2); try lra.
    - apply f_equal. ring.
    - apply sqrt_between; lra. }
  assert (Hr2 : UnrestrictedFitByPieceWidth 3 12 3 2 5 false false false =
                Ok 5).
  { rewrite (row_width_unaligned 3 12 3 2 5 11 1); try lra.
    - apply f_equal. ring.
    - apply sqrt_between; lra. }
  assert (Hm : UnrestrictedFitByPieceWidth 3 12 0 1 5 false false false =
               Ok 10).
  { rewrite (row_width_unaligned 3 12 0 1 5 35 2); try lra.
    - apply f_equal. ring.
    - apply sqrt_between; lra. }
  assert (Hrows : UnrestrictedFitHalf 3 12 2 5 1 false false false =
                  Ok [(1, 10); (3, 5); (5, 0)]).
  { unfold UnrestrictedFitHalf.
    rewrite (half_loop_step 2 3 12 2 5 false false false 1 [] 0 10)
      by (lra || exact Hr1).
    replace (1 + 2) with 3 by ring.
    rewrite (half_loop_step 1 3 12 2 5 false false false 3 _ 10 5)
      by (lra || exact Hr2).
    replace (3 + 2) with 5 by ring.
    rewrite half_loop_stop by lra. rewrite bind_Ok.
    rewrite truthy_nonzero by lra. reflexivity. }
  destruct (ComputeSliceError_defined 12 1 2 10) as [ea [Hea _]]; try lra.
  destruct (ComputeSliceError_defined 12 3 2 5) as [eb [Heb _]]; try lra.
  pose proof (ComputeSliceError_zero 12 5 2 ltac:(lra) ltac:(lra)) as Hec.
  set (ec := capArea 12 5) in *.
  assert (Htot : ComputeError 12 [(1, 10); (3, 5); (5, 0)] 2 =
                 Ok (0 + ea + eb + ec)).
  { unfold ComputeError. cbn [slice_errors]. now rewrite Hea, Heb, Hec. }
  assert (Hpip : ComputeSliceError 12 0 1 5 = Ok (segmentArea 12 0 1 - 5)).
  { rewrite ComputeSliceError_nonzero by lra. apply f_equal.
    rewrite Rabs_right by lra. ring. }
  assert (Hmid : ComputeSliceError 12 0 1 10 = Ok (segmentArea 12 0 1 - 10)).
  { rewrite ComputeSliceError_nonzero by lra. apply f_equal.
    rewrite Rabs_right by lra. ring. }
  exists (Solution [(1, 10); (3, 5); (5, 0)] 10
            (2 * (0 + ea + eb + ec) + 2 * (segmentArea 12 0 1 - 5))),
         (0 + ea + eb + ec), (segmentArea 12 0 1 - 10),
         (segmentArea 12 0 1 - 5).
  cbn [sol_rows sol_middle sol_error].
  split.
  { unfold FitCircleOffsetMiddleHalfPiece. cbv zeta.
    change (num_val (py_half (PyInt 2))) with 1.
    change (num_val (PyInt 2)) with 2.
    now rewrite Hrows, bind_Ok, Hm, bind_Ok, Htot, bind_Ok, Hpip, bind_Ok. }
  repeat split; try assumption; lra.
Qed.

(** C2, as the specification states it, fails: on the disk of diameter
    2 the row at [y = 0] of height 1/2 and width 0 is charged the whole
    half disk, not the band of height 1/2. *)
Lemma slice_error_zero_width_not_band :
  0 <= 0 /\ 0 + 1 / 2 <= 2 / 2 /\
  ComputeSliceError 2 0 (1 / 2) 0 <> Ok (segmentArea 2 0 (1 / 2)).
Proof.
  split; [lra | split; [lra |]].
  rewrite ComputeSliceError_zero by lra.
  rewrite segmentArea_caps.
  pose proof (capArea_pos 2 (0 + 1 / 2) ltac:(lra) ltac:(lra)) as Hpos.
  intros H. injection H as H. lra.
Qed.

(** C2, amended.  For [0 <= y], [0 <= h] and [y + h <= radius] the slice
    error of a row of width zero is the area of the whole cap above [y],
    [segmentArea(y, radius - y)]; it is [segmentArea(y, h)] exactly when
    the row ends at the top of the disk, [y + h = radius]. *)
Theorem slice_error_zero_width_is_cap (d y h : R) :
  0 < d -> 0 <= y -> 0 <= h -> y + h <= d / 2 ->
  ComputeSliceError d y h 0 = Ok (segmentArea d y (d / 2 - y)) /\
  (ComputeSliceError d y h 0 = Ok (segmentArea d y h) <-> y + h = d / 2).
Proof.
  intros Hd Hy Hh Hyh.
  rewrite ComputeSliceError_zero by lra.
  rewrite <- capArea_segment by exact Hd.
  split; [reflexivity |].
  rewrite segmentArea_caps. split.
  - intros H. injection H as H.
    destruct (Req_dec (y + h) (d / 2)) as [E | Hne]; [exact E |].
    pose proof (capArea_pos d (y + h) Hd ltac:(lra)). lra.
  - intros ->. rewrite capArea_top by exact Hd. f_equal. ring.
Qed.

Lemma slice_error_zero_width_is_cap_witness :
  0 < 4 /\ 0 <= 1 /\ 0 <= 1 / 2 /\ 1 + 1 / 2 <= 4 / 2 /\
  ComputeSliceError 4 1 (1 / 2) 0 = Ok (segmentArea 4 1 (4 / 2 - 1)) /\
  (ComputeSliceError 4 1 (1 / 2) 0 = Ok (segmentArea 4 1 (1 / 2)) <->
   1 + 1 / 2 = 4 / 2).
Proof.
  repeat (split; [lra |]).
  apply (slice_error_zero_width_is_cap 4 1 (1 / 2)); lra.
Defined.

(** C3 at the specification's own scenario, diameter 3 and piece height
    2.  No row fits under either strategy, and the split-at-equator
    strategy returns the empty row sequence with error 0, whereas the
    claim asks for twice the area of the half disk, [9/4 * PI]. *)
Theorem split_middle_small_disk_reports_zero (fuel : nat) (p : R)
    (a e o : bool) :
  UnrestrictedFitHalf fuel 3 (num_val (PyInt 2)) p 0 a e o = Ok [] /\
  UnrestrictedFitHalf fuel 3 (num_val (PyInt 2)) p
    (num_val (py_half (PyInt 2))) a e o = Ok [] /\
  (exists s, FitCircleSplitMiddle fuel 3 (PyInt 2) p a e o = Ok s /\
             sol_rows s = [] /\ sol_error s = 0) /\
  2 * segmentArea 3 0 (3 / 2) = 9 / 4 * PI /\
  0 <> 2 * segmentArea 3 0 (3 / 2).
Proof.
  assert (Hs : 2 * segmentArea 3 0 (3 / 2) = 9 / 4 * PI).
  { replace (3 / 2) with (3 / 2 - 0) at 1 by ring.
    rewrite <- capArea_segment by lra.
    unfold capArea. cbv zeta.
    replace (0 / (3 / 2)) with 0 by field. rewrite acos_0. field. }
  split; [apply UnrestrictedFitHalf_no_rows; cbn; lra |].
  split; [apply UnrestrictedFitHalf_no_rows; cbn; lra |].
  split.
  - exists (Solution [] 0 (2 * 0)).
    split; [apply FitCircleSplitMiddle_no_rows; cbn; lra |].
    split; [reflexivity | cbn; ring].
  - split; [exact Hs |]. rewrite Hs. pose proof PI_RGT_0. lra.
Qed.

(** C4, as the specification states it, fails: on the disk of diameter
    2, [UnrestrictedFit] at [y = 1] with height 1 raises [ValueError]
    where the claim wants the width 0; and [FitCircle] on diameter 1
    with the default piece height 2 and pip width 5 ends in the same
    [ValueError], raised by the unguarded middle row. *)
Lemma chord_width_not_clamped :
  2 / 2 < 1 + 1 /\
  UnrestrictedFit 2 1 1 = Raise ValueError /\
  UnrestrictedFit 2 1 1 <> Ok 0 /\
  FitCircle 1 1 (PyInt 2) 5 true = Raise ValueError.
Proof.
  split; [lra |].
  assert (H : UnrestrictedFit 2 1 1 = Raise ValueError)
    by (apply UnrestrictedFit_raise; lra).
  split; [exact H |]. split; [rewrite H; discriminate |].
  unfold FitCircle, combinations. cbn [fit_all fit].
  rewrite FitCircleSplitMiddle_no_rows by (cbn; lra). rewrite !bind_Ok.
  unfold FitCircleOffsetMiddleHalfPiece. cbv zeta.
  rewrite UnrestrictedFitHalf_no_rows by (cbn; lra). rewrite bind_Ok.
  unfold UnrestrictedFitByPieceWidth, quantize.
  rewrite UnrestrictedFit_raise by (cbn; lra).
  reflexivity.
Qed.

(** C4, amended.  Nothing is clamped: [UnrestrictedFit] raises
    [ValueError] whenever [y + h] is above the radius and returns
    [2 * sqrt(r^2 - (y + h)^2)] when [y + h] is within it.  The row loop
    calls it only under its guard [y + h <= radius]: for a positive
    diameter, piece height and pip width and any start height [>= 0] the
    loop ends with its rows and without a failure, and so does the whole
    split-at-equator strategy. *)
Theorem chord_width_guarded_by_loop (d : R) (h : pynum) (p off : R)
    (a e o : bool) :
  0 < d -> 0 < num_val h -> 0 < p -> 0 <= off ->
  (forall y h', d / 2 < y + h' -> UnrestrictedFit d y h' = Raise ValueError) /\
  (forall y h', - (d / 2) <= y + h' <= d / 2 ->
     UnrestrictedFit d y h' = Ok (2 * sqrt ((d / 2) ^ 2 - (y + h') ^ 2))) /\
  (exists F : nat, forall fuel, (F <= fuel)%nat ->
     exists rows,
       UnrestrictedFitHalf fuel d (num_val h) p off a e o = Ok rows) /\
  (exists F : nat, forall fuel, (F <= fuel)%nat ->
     exists s, FitCircleSplitMiddle fuel d h p a e o = Ok s).
Proof.
  intros Hd Hh Hp Hoff. repeat split.
  - intros y h' H. apply UnrestrictedFit_raise; lra.
  - intros y h' H. apply UnrestrictedFit_ok; lra.
  - destruct (UnrestrictedFitHalf_runs d (num_val h) p off a e o
                Hd Hh Hp Hoff) as [F HF].
    exists F. intros fuel Hf. destruct (HF fuel Hf) as [rows [Hr _]].
    now exists rows.
  - destruct (FitCircleSplitMiddle_runs d h p a e o Hd Hh Hp) as [F HF].
    exists F. intros fuel Hf. destruct (HF fuel Hf) as [s [Hs _]].
    now exists s.
Qed.

Lemma chord_width_guarded_by_loop_witness :
  UnrestrictedFit 20 9 2 = Raise ValueError /\
  exists F : nat, forall fuel, (F <= fuel)%nat ->
    exists s, FitCircleSplitMiddle fuel 20 (PyInt 2) 5 true true true = Ok s.
Proof.
  pose proof (chord_width_guarded_by_loop 20 (PyInt 2) 5 0 true true true
                ltac:(lra) ltac:(cbn; lra) ltac:(lra) ltac:(lra))
    as [Hraise [_ [_ Hrun]]].
  split; [apply Hraise; lra | exact Hrun].
Defined.

(** C5, as the specification states it, fails: [FitCircle] on the
    diameter [-4], with the default piece height and pip width and the
    search off, is not rejected; it returns its six solutions. *)
Lemma negative_diameter_not_rejected :
  -4 <= 0 /\
  exists rep, FitCircle 1 (-4) (PyInt 2) 5 false = Ok rep /\
              length (entries rep) = 6%nat.
Proof.
  split; [lra |].
  assert (Hu : UnrestrictedFit (-4) 0 (num_val (py_half (PyInt 2))) =
               Ok (2 * sqrt ((-4 / 2) ^ 2 - (0 + 1) ^ 2))).
  { unfold UnrestrictedFit. cbn [py_half num_val].
    change (2 / 2)%Z with 1%Z.
    rewrite py_sqrt_ok by lra. reflexivity. }
  assert (Hc : exists e', ComputeSliceError (-4) 0
                            (num_val (py_half (PyInt 2))) 5 = Ok e').
  { unfold ComputeSliceError. cbv zeta. cbn [py_half num_val].
    change (2 / 2)%Z with 1%Z.
    rewrite truthy_nonzero by lra.
    rewrite py_div_ok by lra. rewrite bind_Ok.
    rewrite py_acos_ok by lra. rewrite bind_Ok.
    rewrite py_div_ok by lra. rewrite bind_Ok.
    rewrite py_acos_ok by lra. rewrite bind_Ok.
    rewrite py_sqrt_ok by lra. rewrite bind_Ok.
    rewrite py_sqrt_ok by lra. rewrite bind_Ok.
    eexists. reflexivity. }
  destruct Hc as [e' Hc].
  assert (Hoff : forall a e, exists s,
            FitCircleOffsetMiddleHalfPiece 1 (-4) (PyInt 2) 5 a e false =
            Ok s).
  { intros a e. eexists.
    eapply FitCircleOffsetMiddleHalfPiece_no_rows.
    - cbn. lra.
    - apply quantize_ok; [lra | exact Hu].
    - exact Hc. }
  destruct (Hoff false false) as [s1 H1].
  destruct (Hoff true true) as [s3 H3].
  destruct (Hoff true false) as [s5 H5].
  rewrite FitCircle_unfold.
  rewrite !FitCircleSplitMiddle_no_rows by (cbn; lra).
  rewrite H1, H3, H5, !bind_Ok, !py_min_enum_cons, !bind_Ok.
  eexists. split; reflexivity.
Qed.

(** C5, amended.  The inputs are not checked before the computation
    starts.  With a diameter [<= 0] and a positive piece height the
    split-at-equator strategy returns a solution, the empty row sequence
    with error 0, whatever the pip width.  With a pip width of 0 and a
    disk in which a row fits, the run fails only inside the first row,
    with the [ZeroDivisionError] of its modulo. *)
Theorem inputs_not_validated :
  (forall (fuel : nat) (d : R) (h : pynum) (p : R) (a e o : bool),
     d <= 0 -> 0 < num_val h ->
     exists s, FitCircleSplitMiddle fuel d h p a e o = Ok s /\
               sol_rows s = [] /\ sol_middle s = 0 /\ sol_error s = 0) /\
  (forall (fuel : nat) (d : R) (h : pynum) (a e o : bool),
     0 < num_val h <= d / 2 ->
     FitCircleSplitMiddle (S fuel) d h 0 a e o = Raise ZeroDivisionError).
Proof.
  split.
  - intros fuel d h p a e o Hd Hh.
    exists (Solution [] 0 (2 * 0)).
    split; [apply FitCircleSplitMiddle_no_rows; lra |].
    repeat split. cbn. ring.
  - intros fuel d h a e o [Hh Hd].
    unfold FitCircleSplitMiddle, UnrestrictedFitHalf. cbv zeta.
    cbn [half_loop].
    destruct (Rle_dec (0 + num_val h) (d / 2)) as [_ | Hn]; [| lra].
    unfold UnrestrictedFitByPieceWidth, quantize.
    rewrite UnrestrictedFit_ok by lra. rewrite bind_Ok.
    rewrite py_fmod_zero. reflexivity.
Qed.

Lemma inputs_not_validated_witness :
  (-4 <= 0 /\ 0 < num_val (PyInt 2) /\
   exists s, FitCircleSplitMiddle 1 (-4) (PyInt 2) 5 true true true = Ok s /\
             sol_rows s = [] /\ sol_middle s = 0 /\ sol_error s = 0) /\
  (0 < num_val (PyInt 2) <= 20 / 2 /\
   FitCircleSplitMiddle 1 20 (PyInt 2) 0 false false true =
   Raise ZeroDivisionError).
Proof.
  split.
  - split; [lra | split; [cbn; lra |]].
    apply (proj1 inputs_not_validated); [lra | cbn; lra].
  - split; [cbn; lra |].
    apply (proj2 inputs_not_validated). cbn; lra.
Defined.

(** C6, as the specification states it, fails: split at the equator,
    unaligned, on diameter 10 with piece height 3 and pip width 20, the
    total error with the outside search is larger than without it. *)
Lemma outside_search_can_raise_total :
  exists s0 s1,
    FitCircleSplitMiddle 3 10 (PyInt 3) 20 false false false = Ok s0 /\
    FitCircleSplitMiddle 3 10 (PyInt 3) 20 false false true = Ok s1 /\
    ~ sol_error s1 <= sol_error s0.
Proof.
  eexists. eexists.
  split; [apply split_10_3_20_inside |].
  split; [apply split_10_3_20_outside |].
  cbn [sol_error].
  pose proof segmentArea_10_0_3 as HA.
  pose proof (segmentArea_caps 10 0 3) as Hc.
  replace (0 + 3) with 3 in Hc by ring. lra.
Qed.

(** C6, amended.  For one strategy and one alignment, a positive piece
    height and a positive pip width, whenever the run with the outside
    search and the run without it both return: the total error with the
    search is at most the total error without it plus twice the
    [closing_excess] of the two row sequences.  The excess is zero
    unless the search widened a last row of width zero, which adds the
    closing row; with [(y, w)] the widened row it is then
    [max 0 (w * h - 2 * segmentArea y h)].  So the total error with the
    search is at most the total error without it whenever the two row
    sequences have the same length, and also whenever the widened last
    row covers at most twice the area of its band. *)
Theorem outside_total_error_le (fuel : nat) (d : R) (h : pynum) (p : R)
    (c : strategy * bool * bool * bool)
    (s0 s1 : solution) (t0 t1 : bool) :
  0 < num_val h -> 0 < p ->
  fit fuel d h p false c = Ok (s0, t0) ->
  fit fuel d h p true c = Ok (s1, t1) ->
  sol_error s1 <=
    sol_error s0 +
    2 * closing_excess d (num_val h) (sol_rows s0) (sol_rows s1) /\
  (length (sol_rows s0) = length (sol_rows s1) ->
   sol_error s1 <= sol_error s0) /\
  (forall y w,
     nth_error (sol_rows s1) (length (sol_rows s0) - 1) = Some (y, w) ->
     w * num_val h <= 2 * segmentArea d y (num_val h) ->
     sol_error s1 <= sol_error s0).
Proof.
  intros Hh Hp R0 R1.
  assert (Hmain : sol_error s1 <=
            sol_error s0 +
            2 * closing_excess d (num_val h) (sol_rows s0) (sol_rows s1)).
  { revert R0 R1. destruct c as [[[s a] e] t]. unfold fit. destruct s.
    - unfold FitCircleSplitMiddle, ComputeError. cbv zeta.
      destruct (UnrestrictedFitHalf fuel d (num_val h) p 0 a e false)
        as [rows0 | |] eqn:H0; cbn [bind]; try discriminate.
      destruct (slice_errors d (num_val h) rows0) as [es0 | |] eqn:E0;
        cbn [bind]; try discriminate.
      destruct (UnrestrictedFitHalf fuel d (num_val h) p 0 a e true)
        as [rows1 | |] eqn:H1; cbn [bind]; try discriminate.
      destruct (slice_errors d (num_val h) rows1) as [es1 | |] eqn:E1;
        cbn [bind]; try discriminate.
      intros R0 R1. injection R0 as <- _. injection R1 as <- _.
      cbn [sol_rows sol_error].
      pose proof (UnrestrictedFitHalf_outside_total _ _ _ _ _ _ _ _ _ _ _
                    Hh Hp H0 H1 E0 E1).
      lra.
    - unfold FitCircleOffsetMiddleHalfPiece, ComputeError. cbv zeta.
      destruct (UnrestrictedFitHalf fuel d (num_val h) p
                  (num_val (py_half h)) a e false)
        as [rows0 | |] eqn:H0; cbn [bind]; try discriminate.
      destruct (UnrestrictedFitByPieceWidth fuel d 0 (num_val (py_half h)) p
                  a e false) as [m0 | |]; cbn [bind]; try discriminate.
      destruct (slice_errors d (num_val h) rows0) as [es0 | |] eqn:E0;
        cbn [bind]; try discriminate.
      destruct (UnrestrictedFitHalf fuel d (num_val h) p
                  (num_val (py_half h)) a e true)
        as [rows1 | |] eqn:H1; cbn [bind]; try discriminate.
      destruct (UnrestrictedFitByPieceWidth fuel d 0 (num_val (py_half h)) p
                  a e true) as [m1 | |]; cbn [bind]; try discriminate.
      destruct (slice_errors d (num_val h) rows1) as [es1 | |] eqn:E1;
        cbn [bind]; try discriminate.
      destruct (ComputeSliceError d 0 (num_val (py_half h)) p) as [e' | |];
        cbn [bind]; try discriminate.
      intros R0 R1. injection R0 as <- _. injection R1 as <- _.
      cbn [sol_rows sol_error].
      pose proof (UnrestrictedFitHalf_outside_total _ _ _ _ _ _ _ _ _ _ _
                    Hh Hp H0 H1 E0 E1).
      lra. }
  split; [exact Hmain |]. split.
  - intros Hlen. unfold closing_excess in Hmain.
    rewrite Hlen, Nat.eqb_refl in Hmain. lra.
  - intros y w Hrow Hw. unfold closing_excess in Hmain.
    destruct (length (sol_rows s0) =? length (sol_rows s1))%nat; [lra |].
    rewrite Hrow in Hmain. rewrite Rmax_left in Hmain by lra. lra.
Qed.

Lemma outside_total_error_le_witness :
  exists s0 s1,
    fit 3 10 (PyInt 5) 5 false (SplitMiddle, false, false, false) =
      Ok (s0, false) /\
    fit 3 10 (PyInt 5) 5 true (SplitMiddle, false, false, false) =
      Ok (s1, false) /\
    sol_rows s0 = [(0, 0)] /\
    sol_rows s1 = [(0, 10); (5, 0)] /\
    sol_error s1 <= sol_error s0.
Proof.
  assert (H0 : fit 3 10 (PyInt 5) 5 false (SplitMiddle, false, false, false)
               = Ok (Solution [(0, 0)] 0 (2 * (0 + capArea 10 0)), false))
    by (unfold fit; now rewrite split_10_5_5_inside).
  assert (H1 : fit 3 10 (PyInt 5) 5 true (SplitMiddle, false, false, false)
               = Ok (Solution [(0, 10); (5, 0)] 0
                       (2 * (0 + (50 - 25 / 2 * PI) + capArea 10 5)),
                     false))
    by (unfold fit; now rewrite split_10_5_5_outside).
  eexists. eexists.
  split; [exact H0 |]. split; [exact H1 |].
  split; [reflexivity |]. split; [reflexivity |].
  refine (proj2 (proj2 (outside_total_error_le 3 10 (PyInt 5) 5 _ _ _ _ _
                          _ _ H0 H1)) 0 10 eq_refl _).
  - cbn [num_val]. lra.
  - lra.
  - cbn [num_val]. rewrite segmentArea_10_0_5.
    pose proof PI2_3_2. lra.
Defined.

(** C7.  [ConsiderOutsidePieces], started on a width [W >= 0] with the
    error [E] of that width, for a row inside the disk and a positive
    pip width.  The widths it tries are [cand 1, cand 2, ...]: the first
    step from [W = 0] is one pip when unaligned or when the parity is
    odd and two pips when aligned on an even count; every other step is
    one pip when unaligned and two when aligned.  It returns [cand n]
    where each of the first [n] steps strictly lowered the error and
    step [n + 1] did not, and the width returned is at least [W]. *)
Theorem outside_search_trace (d y h p W E : R) (a e : bool) :
  0 < d -> 0 <= y -> 0 < h -> y + h <= d / 2 -> 0 < p -> 0 <= W ->
  ComputeSliceError d y h W = Ok E ->
  let cand := cand_width (negb (truthy W)) a e p W in
  (W = 0 -> cand 1%nat = W + (if a && e then 2 * p else p)) /\
  (forall k, W <> 0 \/ (1 <= k)%nat ->
     cand (S k) = cand k + (if a then 2 * p else p)) /\
  exists (n F : nat),
    (forall k, (k < n)%nat ->
       exists e0 e1,
         ComputeSliceError d y h (cand k) = Ok e0 /\
         ComputeSliceError d y h (cand (S k)) = Ok e1 /\ e1 < e0) /\
    (exists e0 e1,
       ComputeSliceError d y h (cand n) = Ok e0 /\
       ComputeSliceError d y h (cand (S n)) = Ok e1 /\ ~ e1 < e0) /\
    W <= cand n /\
    forall fuel, (F <= fuel)%nat ->
      ConsiderOutsidePieces fuel d y h p E W a e = Ok (cand n).
Proof.
  intros Hd Hy Hh Hyh Hp HW HE cand.
  split; [| split].
  - intros ->. unfold cand. rewrite truthy_0. cbn [negb cand_width].
    unfold try_extra. destruct (a && e); ring.
  - intros k Hk. unfold cand. rewrite cand_width_last.
    assert (Hst : match k with O => negb (truthy W) | S _ => false end = false).
    { destruct k; [| reflexivity].
      destruct Hk as [Hnz | Hk]; [| lia].
      now rewrite truthy_nonzero. }
    rewrite Hst. reflexivity.
  - destruct (nat_above ((E + segmentArea d y h - W * h) / (p * h)))
      as [N HN].
    assert (Hph : 0 < p * h) by nra.
    assert (HM : E + segmentArea d y h - W * h < INR N * (p * h)).
    { apply Rmult_lt_compat_r with (r := p * h) in HN; [| exact Hph].
      unfold Rdiv in HN. rewrite Rmult_assoc, Rinv_l, Rmult_1_r in HN by lra.
      exact HN. }
    destruct (outside_loop_runs d y h p a e Hd ltac:(lra) Hh Hyh Hp N
                W E (negb (truthy W)) HW HE HM) as [n [[Htr Hlast] Hrun]].
    exists n, (S N). repeat split.
    + exact Htr.
    + exact Hlast.
    + apply cand_width_ge. lra.
    + intros fuel Hf. unfold ConsiderOutsidePieces. cbv zeta.
      apply Hrun. lia.
Qed.

Lemma outside_search_trace_witness :
  exists E,
    ComputeSliceError 10 0 3 8 = Ok E /\
    exists (w : R) (F : nat),
      8 <= w /\
      forall fuel, (F <= fuel)%nat ->
        ConsiderOutsidePieces fuel 10 0 3 4 E 8 false false = Ok w.
Proof.
  exists (Rabs (segmentArea 10 0 3 - 8 * 3)).
  assert (HE : ComputeSliceError 10 0 3 8 =
               Ok (Rabs (segmentArea 10 0 3 - 8 * 3)))
    by (apply ComputeSliceError_nonzero; lra).
  split; [exact HE |].
  destruct (outside_search_trace 10 0 3 4 8 _ false false
              ltac:(lra) ltac:(lra) ltac:(lra) ltac:(lra) ltac:(lra)
              ltac:(lra) HE)
    as [_ [_ [n [F [_ [_ [Hge Hrun]]]]]]].
  exists (cand_width (negb (truthy 8)) false false 4 8 n), F.
  split; [exact Hge | exact Hrun].
Defined.

(** C8.  With alignment on, for a row inside the disk and a positive pip
    width.  The width [UnrestrictedFitByPieceWidth] returns, with or
    without the outside search, is a non-negative whole number of pips,
    and so is every width in the row sequence that starts at [y]; a call
    for any other row, such as the middle row, returns a whole number of
    pips whenever it returns a width.  Take the pip count [c] and the
    width [u] that the quantization computes before the parity block
    (the pair the unaligned call computes, whose width it returns).
    The count is not negative.  When [c] has the required parity (even
    iff [align_even_number]) or is 0, the aligned call keeps the count
    and returns [u]; when [c] is positive and of the other parity, the
    count is decremented by exactly one and the call returns [u] less
    one pip width.  With the search the call returns that width plus a
    whole, non-negative number of pips. *)
Theorem aligned_width_whole_pips (d y h p : R) (e o : bool) :
  0 < d -> 0 <= y -> 0 < h -> y + h <= d / 2 -> 0 < p ->
  (exists (F : nat) (k : Z),
     (0 <= k)%Z /\
     forall fuel, (F <= fuel)%nat ->
       UnrestrictedFitByPieceWidth fuel d y h p true e o = Ok (IZR k * p)) /\
  (exists F : nat, forall fuel, (F <= fuel)%nat ->
     exists rows,
       UnrestrictedFitHalf fuel d h p y true e o = Ok rows /\
       Forall (whole_pips p) rows) /\
  (forall (fuel : nat) (y' h' w : R),
     UnrestrictedFitByPieceWidth fuel d y' h' p true e o = Ok w ->
     exists k : Z, (0 <= k)%Z /\ w = IZR k * p) /\
  (exists (c : Z) (u : R),
     quantize d y h p false e = Ok (c, u) /\ (0 <= c)%Z /\
     forall fuel,
       UnrestrictedFitByPieceWidth fuel d y h p false e false = Ok u) /\
  (forall (c : Z) (u : R),
     quantize d y h p false e = Ok (c, u) ->
     (Z.even c = e \/ c = 0%Z ->
      quantize d y h p true e = Ok (c, u) /\
      forall fuel,
        UnrestrictedFitByPieceWidth fuel d y h p true e false = Ok u) /\
     (Z.even c <> e -> (0 < c)%Z ->
      quantize d y h p true e = Ok ((c - 1)%Z, u - p) /\
      forall fuel,
        UnrestrictedFitByPieceWidth fuel d y h p true e false =
        Ok (u - p))) /\
  (exists (F : nat) (j : Z) (w0 : R),
     (0 <= j)%Z /\
     forall fuel, (F <= fuel)%nat ->
       UnrestrictedFitByPieceWidth fuel d y h p true e false = Ok w0 /\
       UnrestrictedFitByPieceWidth fuel d y h p true e true =
       Ok (w0 + IZR j * p)).
Proof.
  intros Hd Hy Hh Hyh Hp.
  split; [| split; [| split; [| split; [| split]]]].
  - now apply UnrestrictedFitByPieceWidth_runs.
  - destruct (UnrestrictedFitHalf_runs d h p y true e o Hd Hh Hp Hy)
      as [F HF].
    exists F. intros fuel Hf. destruct (HF fuel Hf) as [rows [Hr [_ Hp']]].
    now exists rows.
  - intros fuel y' h' w. now apply UnrestrictedFitByPieceWidth_pips.
  - destruct (quantize_in_disk d y h p false e Hd Hp ltac:(lra))
      as [n [Hn Hq]].
    exists n, (IZR n * p). split; [exact Hq |]. split; [exact Hn |].
    intros fuel. unfold UnrestrictedFitByPieceWidth.
    now rewrite Hq, bind_Ok.
  - intros c u Hq.
    pose proof (quantize_aligned d y h p e e c u Hq) as Ha.
    destruct (align_parity_cases e c u p) as [Hkeep [Hdec Hzero]].
    split.
    + intros Hc.
      assert (E : align_parity e c u p = (c, u)).
      { destruct Hc as [Hc | ->]; [now apply Hkeep | exact Hzero]. }
      rewrite E in Ha. split; [exact Ha |].
      intros fuel. unfold UnrestrictedFitByPieceWidth.
      now rewrite Ha, bind_Ok.
    + intros Hpar Hpos. rewrite (Hdec Hpar Hpos) in Ha.
      split; [exact Ha |].
      intros fuel. unfold UnrestrictedFitByPieceWidth.
      now rewrite Ha, bind_Ok.
  - destruct (UnrestrictedFitByPieceWidth_runs d y h p true e false
                Hd Hy Hh Hyh Hp) as [F0 [k0 [_ H0]]].
    destruct (UnrestrictedFitByPieceWidth_runs d y h p true e true
                Hd Hy Hh Hyh Hp) as [F1 [k1 [_ H1]]].
    set (F := Nat.max F0 F1).
    destruct (UnrestrictedFitByPieceWidth_adds_pips F d y h p _ _ true e
                (H0 F ltac:(lia)) (H1 F ltac:(lia))) as [j [Hj Ej]].
    exists F, j, (IZR k0 * p). split; [exact Hj |].
    intros fuel Hf. split; [apply H0; lia |].
    rewrite <- Ej. apply H1. lia.
Qed.

Lemma aligned_width_whole_pips_witness :
  quantize 10 0 3 4 false false = Ok (2%Z, 2 * 4) /\
  quantize 10 0 3 4 true false = Ok ((2 - 1)%Z, 2 * 4 - 4) /\
  forall fuel,
    UnrestrictedFitByPieceWidth fuel 10 0 3 4 true false false =
    Ok (2 * 4 - 4).
Proof.
  assert (Hq : quantize 10 0 3 4 false false = Ok (2%Z, 2 * 4)).
  { rewrite (quantize_ok 10 0 3 4 8) by (lra || apply chord_10_3).
    cbv zeta. now rewrite (Zfloor_eq 2 (8 / 4)) by lra. }
  split; [exact Hq |].
  destruct (aligned_width_whole_pips 10 0 3 4 false false
              ltac:(lra) ltac:(lra) ltac:(lra) ltac:(lra) ltac:(lra))
    as [_ [_ [_ [_ [Hpar _]]]]].
  destruct (Hpar 2%Z (2 * 4) Hq) as [_ Hdec].
  apply Hdec; [discriminate | lia].
Defined.

(** C9, as the specification states it, fails: on diameter 3 the class
    of aligned entries that [FitCircle] takes its least error from has
    four members and the unaligned class two, not three each. *)
Lemma champion_classes_not_three :
  exists rep,
    FitCircle 1 3 (PyInt 2) 5 false = Ok rep /\
    length (errors_with_flag true (entries rep)) <> 3%nat /\
    length (errors_with_flag false (entries rep)) <> 3%nat.
Proof.
  destruct FitCircle_diameter_3 as [rep Hrep].
  exists rep. split; [exact Hrep |].
  rewrite FitCircle_unfold in Hrep.
  destruct (FitCircleSplitMiddle 1 3 (PyInt 2) 5 false false false)
    as [s0 | |]; cbn [bind] in Hrep; try discriminate.
  destruct (FitCircleOffsetMiddleHalfPiece 1 3 (PyInt 2) 5 false false false)
    as [s1 | |]; cbn [bind] in Hrep; try discriminate.
  destruct (FitCircleSplitMiddle 1 3 (PyInt 2) 5 true true false)
    as [s2 | |]; cbn [bind] in Hrep; try discriminate.
  destruct (FitCircleOffsetMiddleHalfPiece 1 3 (PyInt 2) 5 true true false)
    as [s3 | |]; cbn [bind] in Hrep; try discriminate.
  destruct (FitCircleSplitMiddle 1 3 (PyInt 2) 5 true false false)
    as [s4 | |]; cbn [bind] in Hrep; try discriminate.
  destruct (FitCircleOffsetMiddleHalfPiece 1 3 (PyInt 2) 5 true false false)
    as [s5 | |]; cbn [bind] in Hrep; try discriminate.
  rewrite !py_min_enum_cons, !bind_Ok in Hrep. injection Hrep as <-.
  cbn. split; discriminate.
Qed.

(** C9, amended.  [FitCircle] runs the six combinations of the two
    strategies with unaligned, aligned-even and aligned-odd rows, in a
    fixed order.  The aligned class has four entries (both strategies,
    both parities) and the unaligned class two; for each class apart it
    reports the least error of the class, the first one in list order
    when several are least. *)
Theorem fit_circle_champions (fuel : nat) (d : R) (h : pynum) (p : R)
    (o : bool) (rep : report) :
  FitCircle fuel d h p o = Ok rep ->
  exists s0 s1 s2 s3 s4 s5,
    FitCircleSplitMiddle fuel d h p false false o = Ok s0 /\
    FitCircleOffsetMiddleHalfPiece fuel d h p false false o = Ok s1 /\
    FitCircleSplitMiddle fuel d h p true true o = Ok s2 /\
    FitCircleOffsetMiddleHalfPiece fuel d h p true true o = Ok s3 /\
    FitCircleSplitMiddle fuel d h p true false o = Ok s4 /\
    FitCircleOffsetMiddleHalfPiece fuel d h p true false o = Ok s5 /\
    entries rep = [(s0, false); (s1, false); (s2, true); (s3, true);
                   (s4, true); (s5, true)] /\
    errors_with_flag true (entries rep) =
      [sol_error s2; sol_error s3; sol_error s4; sol_error s5] /\
    errors_with_flag false (entries rep) = [sol_error s0; sol_error s1] /\
    is_first_min (best_aligned rep) (errors_with_flag true (entries rep)) /\
    is_first_min (best_unaligned rep) (errors_with_flag false (entries rep)).
Proof.
  rewrite FitCircle_unfold. intros H.
  destruct (FitCircleSplitMiddle fuel d h p false false o) as [s0 | |];
    cbn [bind] in H; try discriminate.
  destruct (FitCircleOffsetMiddleHalfPiece fuel d h p false false o)
    as [s1 | |]; cbn [bind] in H; try discriminate.
  destruct (FitCircleSplitMiddle fuel d h p true true o) as [s2 | |];
    cbn [bind] in H; try discriminate.
  destruct (FitCircleOffsetMiddleHalfPiece fuel d h p true true o)
    as [s3 | |]; cbn [bind] in H; try discriminate.
  destruct (FitCircleSplitMiddle fuel d h p true false o) as [s4 | |];
    cbn [bind] in H; try discriminate.
  destruct (FitCircleOffsetMiddleHalfPiece fuel d h p true false o)
    as [s5 | |]; cbn [bind] in H; try discriminate.
  destruct (py_min_enum [sol_error s2; sol_error s3; sol_error s4;
                         sol_error s5]) as [ma | |] eqn:Hma;
    cbn [bind] in H; try discriminate.
  destruct (py_min_enum [sol_error s0; sol_error s1]) as [mu | |] eqn:Hmu;
    cbn [bind] in H; try discriminate.
  injection H as <-.
  exists s0, s1, s2, s3, s4, s5. cbn [entries best_aligned best_unaligned].
  repeat (split; [reflexivity |]).
  split; [now apply py_min_enum_spec | now apply py_min_enum_spec].
Qed.

Lemma fit_circle_champions_witness :
  exists rep,
    FitCircle 1 3 (PyInt 2) 5 false = Ok rep /\
    length (errors_with_flag true (entries rep)) = 4%nat /\
    length (errors_with_flag false (entries rep)) = 2%nat /\
    is_first_min (best_aligned rep) (errors_with_flag true (entries rep)) /\
    is_first_min (best_unaligned rep) (errors_with_flag false (entries rep)).
Proof.
  destruct FitCircle_diameter_3 as [rep Hrep].
  exists rep. split; [exact Hrep |].
  destruct (fit_circle_champions 1 3 (PyInt 2) 5 false rep Hrep)
    as [s0 [s1 [s2 [s3 [s4 [s5 [_ [_ [_ [_ [_ [_ [_ [Ha [Hu [Hma Hmu]]]]]]]]]]]]]]]].
  rewrite Ha in *. rewrite Hu in *.
  repeat split; assumption || reflexivity || apply Hma || apply Hmu.
Defined.

(** C10.  For [0 <= y <= radius] the slice error of a row of width zero
    is the same for every height: it is the area of the whole cap of the
    disk above [y], that is the band from [y] up to the top. *)
Theorem slice_error_zero_width_ignores_height (d y h1 h2 : R) :
  0 <= y <= d / 2 ->
  ComputeSliceError d y h1 0 = ComputeSliceError d y h2 0 /\
  (0 < d ->
   ComputeSliceError d y h1 0 = Ok (capArea d y) /\
   capArea d y = segmentArea d y (d / 2 - y)).
Proof.
  intros Hy. split.
  - unfold ComputeSliceError. cbv zeta. rewrite truthy_0. reflexivity.
  - intros Hd. split.
    + apply ComputeSliceError_zero; lra.
    + now apply capArea_segment.
Qed.

Lemma slice_error_zero_width_ignores_height_witness :
  0 <= 1 <= 4 / 2 /\
  (ComputeSliceError 4 1 2 0 = ComputeSliceError 4 1 (1 / 2) 0 /\
   (0 < 4 ->
    ComputeSliceError 4 1 2 0 = Ok (capArea 4 1) /\
    capArea 4 1 = segmentArea 4 1 (4 / 2 - 1))).
Proof.
  split; [lra |].
  apply (slice_error_zero_width_ignores_height 4 1 2 (1 / 2)). lra.
Defined.

(** * Further properties of the program *)

(** ** The shape of a row sequence *)

(** [UnrestrictedFitHalf] returns the rows of the loop, closed by a row
    of width zero exactly when the last of them is not zero. *)
Lemma UnrestrictedFitHalf_rows (fuel : nat) (d h p off : R) (a e o : bool)
    (rows : list (R * R)) :
  UnrestrictedFitHalf fuel d h p off a e o = Ok rows ->
  exists body,
    (forall i row, nth_error body i = Some row ->
       fst row = off + INR i * h /\
       fst row + h <= d / 2 /\
       UnrestrictedFitByPieceWidth fuel d (fst row) h p a e o =
       Ok (snd row)) /\
    d / 2 < off + INR (length body) * h + h /\
    ((rows = body /\ last (map snd body) 0 = 0) \/
     (rows = body ++ [(off + INR (length body) * h, 0)] /\
      last (map snd body) 0 <> 0)).
Proof.
  unfold UnrestrictedFitHalf.
  destruct (half_loop fuel fuel d h p a e o off [] 0)
    as [[[y' ws'] lw'] | |] eqn:H; cbn [bind]; try discriminate.
  destruct (half_loop_rows d h p a e o fuel _ _ _ _ _ _ _ H)
    as [body [-> [-> [Hstop [-> Hrows]]]]].
  cbn [app]. exists body. split; [exact Hrows |]. split; [exact Hstop |].
  unfold truthy in H0. destruct (Req_dec_T (last (map snd body) 0) 0);
    injection H0 as <-; [left | right]; now split.
Qed.

Lemma UnrestrictedFitHalf_heights (fuel : nat) (d h p off : R) (a e o : bool)
    (rows : list (R * R)) :
  0 < h ->
  UnrestrictedFitHalf fuel d h p off a e o = Ok rows ->
  forall i row, nth_error rows i = Some row ->
    fst row = off + INR i * h /\
    fst row <= d / 2 /\
    (snd row <> 0 -> fst row + h <= d / 2).
Proof.
  intros Hh Hrun.
  destruct (UnrestrictedFitHalf_rows _ _ _ _ _ _ _ _ _ Hrun)
    as [body [Hbody [Hstop Hcases]]].
  assert (Hin : forall i row, nth_error body i = Some row ->
            fst row = off + INR i * h /\ fst row <= d / 2 /\
            (snd row <> 0 -> fst row + h <= d / 2)).
  { intros i row Hi. destruct (Hbody i row Hi) as [Hy [Hfit _]].
    repeat split; [exact Hy | lra | intros _; exact Hfit]. }
  destruct Hcases as [[-> _] | [-> Hlast]]; [exact Hin |].
  intros i row Hi.
  destruct (Nat.lt_ge_cases i (length body)) as [Hlt | Hge].
  - rewrite nth_error_app1 in Hi by exact Hlt. now apply Hin.
  - rewrite nth_error_app2 in Hi by exact Hge.
    destruct (i - length body)%nat as [| j] eqn:Hj;
      [| destruct j; discriminate].
    cbn [nth_error] in Hi. injection Hi as <-. cbn [fst snd].
    assert (Ei : i = length body) by lia. subst i.
    split; [reflexivity |]. split; [| intros Hn; now elim Hn].
    destruct body as [| r0 body'] eqn:Eb; [now elim Hlast |].
    rewrite <- Eb in *.
    assert (Hlen : (length body = S (length body - 1))%nat)
      by (rewrite Eb; cbn [length]; lia).
    destruct (nth_error body (length body - 1)) as [rl |] eqn:Hl.
    + destruct (Hbody _ _ Hl) as [Hy [Hfit _]].
      rewrite Hlen, S_INR. lra.
    + apply nth_error_None in Hl. lia.
Qed.

(** X1.  Rows stand [piece_height] apart from the start offset: for a
    positive diameter, piece height and pip width and a start offset
    [>= 0], [UnrestrictedFitHalf] returns a sequence whose row [i] is at
    the height [offset + i * piece_height]; no row starts above the
    radius, and a row of nonzero width ends at or below it. *)
Theorem rows_one_piece_height_apart (d h p off : R) (a e o : bool) :
  0 < d -> 0 < h -> 0 < p -> 0 <= off ->
  exists F : nat, forall fuel, (F <= fuel)%nat ->
    exists rows,
      UnrestrictedFitHalf fuel d h p off a e o = Ok rows /\
      forall i row, nth_error rows i = Some row ->
        fst row = off + INR i * h /\
        fst row <= d / 2 /\
        (snd row <> 0 -> fst row + h <= d / 2).
Proof.
  intros Hd Hh Hp Hoff.
  destruct (UnrestrictedFitHalf_runs d h p off a e o Hd Hh Hp Hoff)
    as [F HF].
  exists F. intros fuel Hf. destruct (HF fuel Hf) as [rows [Hrun _]].
  exists rows. split; [exact Hrun |].
  now apply (UnrestrictedFitHalf_heights fuel d h p off a e o).
Qed.

Lemma rows_one_piece_height_apart_witness :
  exists F : nat, forall fuel, (F <= fuel)%nat ->
    exists rows,
      UnrestrictedFitHalf fuel 20 2 5 1 true false true = Ok rows /\
      forall i row, nth_error rows i = Some row ->
        fst row = 1 + INR i * 2 /\
        fst row <= 20 / 2 /\
        (snd row <> 0 -> fst row + 2 <= 20 / 2).
Proof.
  exact (rows_one_piece_height_apart 20 2 5 1 true false true
           ltac:(lra) ltac:(lra) ltac:(lra) ltac:(lra)).
Defined.

Lemma UnrestrictedFitHalf_last_zero (fuel : nat) (d h p off : R)
    (a e o : bool) (rows : list (R * R)) :
  UnrestrictedFitHalf fuel d h p off a e o = Ok rows ->
  snd (last rows (0, 0)) = 0.
Proof.
  intros Hrun.
  destruct (UnrestrictedFitHalf_rows _ _ _ _ _ _ _ _ _ Hrun)
    as [body [_ [_ [[-> Hz] | [-> _]]]]].
  - rewrite last_map_snd. exact Hz.
  - rewrite last_last. reflexivity.
Qed.

(** X2.  A row sequence never ends on a row of positive width: for valid
    inputs [UnrestrictedFitHalf] returns a sequence whose last row, when
    there is one, has width zero (the last fitted row itself, or the
    closing row appended after it). *)
Theorem row_sequence_ends_with_zero_width (d h p off : R) (a e o : bool) :
  0 < d -> 0 < h -> 0 < p -> 0 <= off ->
  exists F : nat, forall fuel, (F <= fuel)%nat ->
    exists rows,
      UnrestrictedFitHalf fuel d h p off a e o = Ok rows /\
      snd (last rows (0, 0)) = 0.
Proof.
  intros Hd Hh Hp Hoff.
  destruct (UnrestrictedFitHalf_runs d h p off a e o Hd Hh Hp Hoff)
    as [F HF].
  exists F. intros fuel Hf. destruct (HF fuel Hf) as [rows [Hrun _]].
  exists rows. split; [exact Hrun |].
  now apply (UnrestrictedFitHalf_last_zero fuel d h p off a e o).
Qed.

Lemma row_sequence_ends_with_zero_width_witness :
  exists F : nat, forall fuel, (F <= fuel)%nat ->
    exists rows,
      UnrestrictedFitHalf fuel 20 2 5 0 false false false = Ok rows /\
      snd (last rows (0, 0)) = 0.
Proof.
  exact (row_sequence_ends_with_zero_width 20 2 5 0 false false false
           ltac:(lra) ltac:(lra) ltac:(lra) ltac:(lra)).
Defined.

(** ** Quantization picks the widest row that fits *)

Lemma UnrestrictedFit_inv (d y h uw : R) :
  UnrestrictedFit d y h = Ok uw ->
  0 <= (d / 2) ^ 2 - (y + h) ^ 2 /\
  uw = 2 * sqrt ((d / 2) ^ 2 - (y + h) ^ 2).
Proof.
  unfold UnrestrictedFit, py_sqrt.
  destruct (Rlt_dec ((d / 2) ^ 2 - (y + h) ^ 2) 0) as [Hlt | Hge];
    [discriminate |].
  rewrite bind_Ok. intros H. injection H as <-. split; [lra | reflexivity].
Qed.

Lemma quantize_inv (d y h p : R) (a e : bool) (pw : Z * R) :
  p <> 0 -> quantize d y h p a e = Ok pw ->
  exists uw,
    UnrestrictedFit d y h = Ok uw /\
    pw = (let n := Zfloor (uw / p) in
          if a then align_parity e n (IZR n * p) p else (n, IZR n * p)).
Proof.
  intros Hp Hq.
  destruct (UnrestrictedFit d y h) as [uw | x |] eqn:Hu;
    [| unfold quantize in Hq; rewrite Hu in Hq; discriminate ..].
  rewrite (quantize_ok d y h p uw a e Hp Hu) in Hq.
  injection Hq as <-. now exists uw.
Qed.

Lemma align_parity_spec (e : bool) (n : Z) (u p : R) :
  (0 <= n)%Z ->
  let n' := fst (align_parity e n u p) in
  (0 <= n')%Z /\ (n - 1 <= n' <= n)%Z /\
  (n' = 0%Z \/ Z.even n' = e) /\
  (Z.even n = e -> n' = n) /\
  (n = 0%Z -> n' = 0%Z) /\
  (Z.even n <> e -> (0 < n)%Z -> n' = (n - 1)%Z).
Proof.
  intros Hn. unfold align_parity. rewrite mod2_eqb_even.
  pose proof (Z.even_sub n 1) as Hs.
  change (Z.even 1) with false in Hs.
  destruct (Bool.bool_dec (Z.even n) e) as [Heq | Hne].
  - assert (Hb : Z.even n && e || negb (Z.even n) && negb e = true)
      by (rewrite Heq; now destruct e).
    rewrite andb_comm in Hb. rewrite (andb_comm (negb (Z.even n))) in Hb.
    rewrite Hb. cbn [fst].
    split; [lia |]. split; [lia |]. split; [now right |].
    split; [reflexivity |]. split; [easy |]. intros H; now elim H.
  - assert (Hb : e && Z.even n || negb e && negb (Z.even n) = false)
      by (destruct (Z.even n), e; try reflexivity; now elim Hne).
    rewrite Hb.
    destruct (n =? 0)%Z eqn:E0; cbn [fst].
    + apply Z.eqb_eq in E0.
      split; [lia |]. split; [lia |]. split; [now left |].
      split; [intros H; now elim Hne |]. split; [easy |]. lia.
    + apply Z.eqb_neq in E0.
      split; [lia |]. split; [lia |]. split.
      { right. rewrite Hs. destruct (Z.even n), e; try reflexivity;
          now elim Hne. }
      split; [intros H; now elim Hne |]. split; [lia |]. reflexivity.
Qed.

Lemma floor_pips (uw p : R) (m : Z) :
  0 < p ->
  IZR (Zfloor (uw / p)) * p <= uw /\
  (IZR m * p <= uw -> (m <= Zfloor (uw / p))%Z).
Proof.
  intros Hp. pose proof (Zfloor_bound (uw / p)) as [Hl Hu].
  assert (E : uw / p * p = uw) by (field; lra).
  split.
  - rewrite <- E at 2. apply Rmult_le_compat_r; lra.
  - intros Hm. apply Zfloor_lub.
    apply Rmult_le_reg_r with p; [exact Hp |]. now rewrite E.
Qed.





(** ** Rows without the outside search *)

Lemma inside_width_bounds (fuel : nat) (d y h p w : R) (a e : bool) :
  0 < p ->
  UnrestrictedFitByPieceWidth fuel d y h p a e false = Ok w ->
  0 <= (d / 2) ^ 2 - (y + h) ^ 2 /\
  0 <= w <= 2 * sqrt ((d / 2) ^ 2 - (y + h) ^ 2) /\
  exists n : Z,
    w = IZR n * p /\
    n = (let n0 := Zfloor (2 * sqrt ((d / 2) ^ 2 - (y + h) ^ 2) / p) in
         if a then fst (align_parity e n0 (IZR n0 * p) p) else n0).
Proof.
  intros Hp. unfold UnrestrictedFitByPieceWidth.
  destruct (quantize d y h p a e) as [pw | x |] eqn:Hq; cbn [bind];
    try discriminate.
  intros H. injection H as <-.
  destruct (quantize_inv d y h p a e pw ltac:(lra) Hq) as [uw [Hu ->]].
  destruct (UnrestrictedFit_inv d y h uw Hu) as [HX ->].
  set (X := (d / 2) ^ 2 - (y + h) ^ 2) in *.
  set (uw := 2 * sqrt X).
  assert (Huw : 0 <= uw) by (unfold uw; pose proof (sqrt_pos X); lra).
  set (n0 := Zfloor (uw / p)).
  assert (Hn0 : (0 <= n0)%Z).
  { apply Zfloor_lub. cbn [IZR].
    apply Rmult_le_pos; [exact Huw | left; now apply Rinv_0_lt_compat]. }
  pose proof (proj1 (floor_pips uw p 0 Hp)) as Hfit. fold n0 in Hfit.
  split; [exact HX |]. cbv zeta. fold n0. destruct a.
  - destruct (align_parity_spec e n0 (IZR n0 * p) p Hn0)
      as [H0 [[Hlo Hhi] _]].
    rewrite align_parity_width.
    set (n := fst (align_parity e n0 (IZR n0 * p) p)) in *.
    assert (0 <= IZR n) by (apply IZR_le; exact H0).
    assert (IZR n <= IZR n0) by (apply IZR_le; exact Hhi).
    split; [split; nra |]. now exists n.
  - cbn [snd]. assert (0 <= IZR n0) by (apply IZR_le; exact Hn0).
    split; [split; nra |]. now exists n0.
Qed.

Lemma align_parity_mono (e : bool) (n1 n2 : Z) (u1 u2 p : R) :
  (0 <= n2 <= n1)%Z ->
  (fst (align_parity e n2 u2 p) <= fst (align_parity e n1 u1 p))%Z.
Proof.
  intros [H0 Hle].
  destruct (align_parity_spec e n1 u1 p ltac:(lia))
    as [_ [[Hlo1 _] [_ [Hk1 [Hz1 Hd1]]]]].
  destruct (align_parity_spec e n2 u2 p H0)
    as [_ [[_ Hhi2] [_ [Hk2 [Hz2 Hd2]]]]].
  destruct (Z.eq_dec n1 n2) as [-> | Hne]; [| lia].
  destruct (Bool.bool_dec (Z.even n2) e) as [Heq | Hodd].
  - rewrite (Hk1 Heq), (Hk2 Heq). lia.
  - destruct (Z.eq_dec n2 0) as [Hz | Hnz].
    + rewrite (Hz1 Hz), (Hz2 Hz). lia.
    + rewrite (Hd1 Hodd ltac:(lia)), (Hd2 Hodd ltac:(lia)). lia.
Qed.

Lemma inside_width_mono (fuel : nat) (d y1 y2 h p w1 w2 : R) (a e : bool) :
  0 < p -> 0 <= y1 + h <= y2 + h ->
  UnrestrictedFitByPieceWidth fuel d y1 h p a e false = Ok w1 ->
  UnrestrictedFitByPieceWidth fuel d y2 h p a e false = Ok w2 ->
  w2 <= w1.
Proof.
  intros Hp [H0 Hle] H1 H2.
  destruct (inside_width_bounds _ _ _ _ _ _ _ _ Hp H1)
    as [HX1 [_ [n1 [-> E1]]]].
  destruct (inside_width_bounds _ _ _ _ _ _ _ _ Hp H2)
    as [HX2 [_ [n2 [-> E2]]]].
  set (X1 := (d / 2) ^ 2 - (y1 + h) ^ 2) in *.
  set (X2 := (d / 2) ^ 2 - (y2 + h) ^ 2) in *.
  assert (HX : X2 <= X1) by (unfold X1, X2; nra).
  assert (Hs : sqrt X2 <= sqrt X1) by now apply sqrt_le_1_alt.
  assert (Hf : (0 <= Zfloor (2 * sqrt X2 / p) <= Zfloor (2 * sqrt X1 / p))%Z).
  { split.
    - apply Zfloor_lub. cbn [IZR]. pose proof (sqrt_pos X2).
      apply Rmult_le_pos; [lra | left; now apply Rinv_0_lt_compat].
    - apply Zfloor_le. apply Rmult_le_compat_r; [| lra].
      left. now apply Rinv_0_lt_compat. }
  assert (Hn : (n2 <= n1)%Z).
  { rewrite E1, E2. cbv zeta. destruct a; [| exact (proj2 Hf)].
    now apply align_parity_mono. }
  apply Rmult_le_compat_r; [lra | now apply IZR_le].
Qed.

Lemma UnrestrictedFitHalf_inside_rows (fuel : nat) (d h p off : R)
    (a e : bool) (rows : list (R * R)) :
  0 < h -> 0 < p -> 0 <= off ->
  UnrestrictedFitHalf fuel d h p off a e false = Ok rows ->
  (forall i row, nth_error rows i = Some row ->
     0 <= fst row /\ 0 <= snd row /\
     (snd row <> 0 ->
      (snd row / 2) ^ 2 + (fst row + h) ^ 2 <= (d / 2) ^ 2)) /\
  (forall i j ri rj, (i <= j)%nat ->
     nth_error rows i = Some ri -> nth_error rows j = Some rj ->
     snd rj <= snd ri).
Proof.
  intros Hh Hp Hoff Hrun.
  destruct (UnrestrictedFitHalf_rows _ _ _ _ _ _ _ _ _ Hrun)
    as [body [Hbody [Hstop Hcases]]].
  assert (Hy : forall i, 0 <= off + INR i * h).
  { intros i. pose proof (pos_INR i). nra. }
  assert (Hin : forall i row, nth_error body i = Some row ->
            0 <= fst row /\ 0 <= snd row /\
            (snd row <> 0 ->
             (snd row / 2) ^ 2 + (fst row + h) ^ 2 <= (d / 2) ^ 2)).
  { intros i row Hi. destruct (Hbody i row Hi) as [E [_ Hw]].
    destruct (inside_width_bounds _ _ _ _ _ _ _ _ Hp Hw)
      as [HX [[Hw0 Hwu] _]].
    split; [rewrite E; apply Hy |]. split; [exact Hw0 |]. intros _.
    set (X := (d / 2) ^ 2 - (fst row + h) ^ 2) in *.
    assert (Hsq : sqrt X * sqrt X = X) by now apply sqrt_sqrt.
    pose proof (sqrt_pos X) as Hs0.
    assert (Hww : snd row * snd row <= 2 * sqrt X * (2 * sqrt X))
      by (apply Rmult_le_compat; lra).
    subst X. set (s := sqrt ((d / 2) ^ 2 - (fst row + h) ^ 2)) in *.
    clearbody s. nra. }
  assert (Hmono : forall i j ri rj, (i <= j)%nat ->
            nth_error body i = Some ri -> nth_error body j = Some rj ->
            snd rj <= snd ri).
  { intros i j ri rj Hij Hi Hj.
    destruct (Hbody i ri Hi) as [Ei [_ Hwi]].
    destruct (Hbody j rj Hj) as [Ej [_ Hwj]].
    apply (inside_width_mono fuel d (fst ri) (fst rj) h p _ _ a e Hp);
      try assumption.
    rewrite Ei, Ej. pose proof (Hy i).
    assert (INR i <= INR j) by now apply le_INR. nra. }
  destruct Hcases as [[-> _] | [-> _]]; [now split |].
  split.
  - intros i row Hi.
    destruct (Nat.lt_ge_cases i (length body)) as [Hlt | Hge].
    + rewrite nth_error_app1 in Hi by exact Hlt. now apply (Hin i).
    + rewrite nth_error_app2 in Hi by exact Hge.
      destruct (i - length body)%nat as [| k]; [| destruct k; discriminate].
      injection Hi as <-. cbn [fst snd].
      split; [apply Hy |]. split; [lra |]. intros Hn. now elim Hn.
  - intros i j ri rj Hij Hi Hj.
    destruct (Nat.lt_ge_cases j (length body)) as [Hlt | Hge].
    + rewrite nth_error_app1 in Hi by lia.
      rewrite nth_error_app1 in Hj by exact Hlt.
      now apply (Hmono i j).
    + rewrite nth_error_app2 in Hj by exact Hge.
      destruct (j - length body)%nat as [| k]; [| destruct k; discriminate].
      injection Hj as <-. cbn [snd].
      destruct (Nat.lt_ge_cases i (length body)) as [Hlti | Hgei].
      * rewrite nth_error_app1 in Hi by exact Hlti.
        now apply (Hin i ri Hi).
      * rewrite nth_error_app2 in Hi by exact Hgei.
        destruct (i - length body)%nat as [| k];
          [| destruct k; discriminate].
        injection Hi as <-. cbn [snd]. lra.
Qed.

(** X5.  Without the outside search every rectangle lies inside the disk:
    for valid inputs each row of [UnrestrictedFitHalf] starts at a
    height [>= 0], has a width [>= 0], and when the width is not zero
    its upper corners [(+- width / 2, y + piece_height)] are within the
    radius. *)
Theorem inside_rows_within_disk (d h p off : R) (a e : bool) :
  0 < d -> 0 < h -> 0 < p -> 0 <= off ->
  exists F : nat, forall fuel, (F <= fuel)%nat ->
    exists rows,
      UnrestrictedFitHalf fuel d h p off a e false = Ok rows /\
      forall i row, nth_error rows i = Some row ->
        0 <= fst row /\ 0 <= snd row /\
        (snd row <> 0 ->
         (snd row / 2) ^ 2 + (fst row + h) ^ 2 <= (d / 2) ^ 2).
Proof.
  intros Hd Hh Hp Hoff.
  destruct (UnrestrictedFitHalf_runs d h p off a e false Hd Hh Hp Hoff)
    as [F HF].
  exists F. intros fuel Hf. destruct (HF fuel Hf) as [rows [Hrun _]].
  exists rows. split; [exact Hrun |].
  exact (proj1 (UnrestrictedFitHalf_inside_rows fuel d h p off a e rows
                  Hh Hp Hoff Hrun)).
Qed.

Lemma inside_rows_within_disk_witness :
  exists F : nat, forall fuel, (F <= fuel)%nat ->
    exists rows,
      UnrestrictedFitHalf fuel 20 2 5 1 true true false = Ok rows /\
      forall i row, nth_error rows i = Some row ->
        0 <= fst row /\ 0 <= snd row /\
        (snd row <> 0 ->
         (snd row / 2) ^ 2 + (fst row + 2) ^ 2 <= (20 / 2) ^ 2).
Proof.
  exact (inside_rows_within_disk 20 2 5 1 true true
           ltac:(lra) ltac:(lra) ltac:(lra) ltac:(lra)).
Defined.

(** X6.  Without the outside search the rows never get wider going up: for
    valid inputs the widths of the sequence [UnrestrictedFitHalf]
    returns are non-increasing in the row index, aligned or not. *)
Theorem inside_widths_non_increasing (d h p off : R) (a e : bool) :
  0 < d -> 0 < h -> 0 < p -> 0 <= off ->
  exists F : nat, forall fuel, (F <= fuel)%nat ->
    exists rows,
      UnrestrictedFitHalf fuel d h p off a e false = Ok rows /\
      forall i j ri rj, (i <= j)%nat ->
        nth_error rows i = Some ri -> nth_error rows j = Some rj ->
        snd rj <= snd ri.
Proof.
  intros Hd Hh Hp Hoff.
  destruct (UnrestrictedFitHalf_runs d h p off a e false Hd Hh Hp Hoff)
    as [F HF].
  exists F. intros fuel Hf. destruct (HF fuel Hf) as [rows [Hrun _]].
  exists rows. split; [exact Hrun |].
  exact (proj2 (UnrestrictedFitHalf_inside_rows fuel d h p off a e rows
                  Hh Hp Hoff Hrun)).
Qed.

Lemma inside_widths_non_increasing_witness :
  exists F : nat, forall fuel, (F <= fuel)%nat ->
    exists rows,
      UnrestrictedFitHalf fuel 20 2 5 0 true false false = Ok rows /\
      forall i j ri rj, (i <= j)%nat ->
        nth_error rows i = Some ri -> nth_error rows j = Some rj ->
        snd rj <= snd ri.
Proof.
  exact (inside_widths_non_increasing 20 2 5 0 true false
           ltac:(lra) ltac:(lra) ltac:(lra) ltac:(lra)).
Defined.

(** ** The outside search, row by row *)

Lemma cand_width_parity (e : bool) (p : R) (k : nat) :
  forall (st : bool) (n : Z),
  (st = true -> n = 0%Z) ->
  exists m : Z,
    cand_width st true e p (IZR n * p) k = IZR m * p /\
    (n <= m)%Z /\ (k = O -> m = n) /\
    (st = true -> k <> O -> Z.even m = e) /\
    (st = false -> Z.even m = Z.even n).
Proof.
  induction k as [| k IH]; intros st n Hst.
  - exists n. cbn [cand_width]. repeat split; (lia || congruence).
  - set (s := (if st then (if e then 2 else 1) else 2)%Z) in *.
    assert (Hx : IZR n * p + try_extra st true e p = IZR (n + s) * p).
    { unfold try_extra, s. rewrite plus_IZR.
      destruct st, e; cbn [andb]; ring. }
    destruct (IH false (n + s)%Z ltac:(discriminate))
      as [m [Em [Hle [_ [_ Hk]]]]].
    specialize (Hk eq_refl).
    exists m. rewrite cand_width_S, Hx. split; [exact Em |].
    split; [unfold s in Hle; destruct st, e; lia |].
    split; [discriminate |]. split.
    + intros -> _. rewrite Hk, (Hst eq_refl). unfold s. now destruct e.
    + intros ->. rewrite Hk. unfold s. rewrite Z.even_add.
      now destruct (Z.even n).
Qed.

(** X7.  The outside search keeps the stacking parity.  With alignment
    on, for a row inside the disk and a positive pip width, started on a
    width of [n >= 0] pips with that width's error: from a width that is
    not zero the search returns a pip count of the same parity as [n];
    from width zero it returns 0 or a count of the required parity (even
    iff [align_even_number]).  The count never goes down. *)
Theorem outside_search_keeps_parity (d y h p E : R) (e : bool) (n : Z) :
  0 < d -> 0 <= y -> 0 < h -> y + h <= d / 2 -> 0 < p -> (0 <= n)%Z ->
  ComputeSliceError d y h (IZR n * p) = Ok E ->
  exists (F : nat) (k : Z),
    (n <= k)%Z /\
    (n = 0%Z -> k = 0%Z \/ Z.even k = e) /\
    (n <> 0%Z -> Z.even k = Z.even n) /\
    forall fuel, (F <= fuel)%nat ->
      ConsiderOutsidePieces fuel d y h p E (IZR n * p) true e =
      Ok (IZR k * p).
Proof.
  intros Hd Hy Hh Hyh Hp Hn HE.
  assert (HW : 0 <= IZR n * p).
  { assert (0 <= IZR n) by (apply IZR_le; lia). nra. }
  destruct (nat_above ((E + segmentArea d y h - IZR n * p * h) / (p * h)))
    as [N HN].
  assert (Hph : 0 < p * h) by nra.
  assert (HM : E + segmentArea d y h - IZR n * p * h < INR N * (p * h)).
  { apply Rmult_lt_compat_r with (r := p * h) in HN; [| exact Hph].
    unfold Rdiv in HN. rewrite Rmult_assoc, Rinv_l, Rmult_1_r in HN by lra.
    exact HN. }
  destruct (outside_loop_runs d y h p true e Hd ltac:(lra) Hh Hyh Hp N
              (IZR n * p) E (negb (truthy (IZR n * p))) HW HE HM)
    as [m [_ Hrun]].
  assert (Hst : negb (truthy (IZR n * p)) = (n =? 0)%Z).
  { destruct (Z.eqb_spec n 0) as [-> | Hnz].
    - cbn [IZR]. replace (0 * p) with 0 by ring. now rewrite truthy_0.
    - rewrite truthy_nonzero; [reflexivity |].
      intros Ez. apply Rmult_integral in Ez. destruct Ez as [Ez | Ez]; [| lra].
      apply Hnz. now apply eq_IZR. }
  rewrite Hst in Hrun.
  destruct (cand_width_parity e p m (n =? 0)%Z n)
    as [k [Ek [Hle [Hk0 [Hseed Hsteady]]]]].
  { intros Ez. now apply Z.eqb_eq. }
  exists (S N), k. split; [exact Hle |]. split; [| split].
  - intros Ez. destruct m as [| m'].
    + left. rewrite (Hk0 eq_refl). exact Ez.
    + right. apply Hseed; [now apply Z.eqb_eq | discriminate].
  - intros Hnz. apply Hsteady. now apply Z.eqb_neq.
  - intros fuel Hf. unfold ConsiderOutsidePieces. cbv zeta.
    rewrite Hst, Hrun by lia. now rewrite Ek.
Qed.

Lemma outside_search_keeps_parity_witness :
  exists E,
    ComputeSliceError 10 0 3 (IZR 2 * 4) = Ok E /\
    exists (F : nat) (k : Z),
      (2 <= k)%Z /\
      (2%Z = 0%Z -> k = 0%Z \/ Z.even k = true) /\
      (2%Z <> 0%Z -> Z.even k = Z.even 2) /\
      forall fuel, (F <= fuel)%nat ->
        ConsiderOutsidePieces fuel 10 0 3 4 E (IZR 2 * 4) true true =
        Ok (IZR k * 4).
Proof.
  exists (Rabs (segmentArea 10 0 3 - IZR 2 * 4 * 3)).
  assert (HE : ComputeSliceError 10 0 3 (IZR 2 * 4) =
               Ok (Rabs (segmentArea 10 0 3 - IZR 2 * 4 * 3)))
    by (apply ComputeSliceError_nonzero; lra).
  split; [exact HE |].
  exact (outside_search_keeps_parity 10 0 3 4 _ true 2
           ltac:(lra) ltac:(lra) ltac:(lra) ltac:(lra) ltac:(lra)
           ltac:(lia) HE).
Defined.

Lemma outside_width_ge (fuel : nat) (d y h p w0 w1 : R) (a e : bool) :
  0 <= p ->
  UnrestrictedFitByPieceWidth fuel d y h p a e false = Ok w0 ->
  UnrestrictedFitByPieceWidth fuel d y h p a e true = Ok w1 ->
  w0 <= w1.
Proof.
  intros Hp. unfold UnrestrictedFitByPieceWidth.
  destruct (quantize d y h p a e) as [pw | x |]; cbn [bind]; try discriminate.
  intros H0 H1. injection H0 as <-.
  destruct (ComputeSliceError d y h (snd pw)) as [e0 | x |];
    cbn [bind] in H1; try discriminate.
  unfold ConsiderOutsidePieces in H1. cbv zeta in H1.
  destruct (outside_loop_pips _ _ _ _ _ _ _ _ _ _ _ H1) as [j [Hj ->]].
  assert (0 <= IZR j) by (apply IZR_le; lia). nra.
Qed.

(** X8.  Row by row the outside search only widens and only improves: for a
    row inside the disk and a positive pip width, the width returned
    with [consider_outside] is at least the width returned without it,
    and its slice error is at most the slice error of the latter. *)
Theorem outside_row_wider_and_no_worse (d y h p : R) (a e : bool) :
  0 < d -> 0 <= y -> 0 < h -> y + h <= d / 2 -> 0 < p ->
  exists (F : nat) (w0 w1 e0 e1 : R),
    w0 <= w1 /\ e1 <= e0 /\
    ComputeSliceError d y h w0 = Ok e0 /\
    ComputeSliceError d y h w1 = Ok e1 /\
    forall fuel, (F <= fuel)%nat ->
      UnrestrictedFitByPieceWidth fuel d y h p a e false = Ok w0 /\
      UnrestrictedFitByPieceWidth fuel d y h p a e true = Ok w1.
Proof.
  intros Hd Hy Hh Hyh Hp.
  destruct (UnrestrictedFitByPieceWidth_runs d y h p a e false
              Hd Hy Hh Hyh Hp) as [F0 [k0 [_ H0]]].
  destruct (UnrestrictedFitByPieceWidth_runs d y h p a e true
              Hd Hy Hh Hyh Hp) as [F1 [k1 [_ H1]]].
  set (F := Nat.max F0 F1).
  pose proof (H0 F ltac:(lia)) as R0. pose proof (H1 F ltac:(lia)) as R1.
  destruct (UnrestrictedFitByPieceWidth_outside _ _ _ _ _ _ _ _ _ R0 R1)
    as [e0 [e1 [He0 [He1 Hle]]]].
  exists F, (IZR k0 * p), (IZR k1 * p), e0, e1.
  split; [exact (outside_width_ge F d y h p _ _ a e ltac:(lra) R0 R1) |].
  split; [exact Hle |]. split; [exact He0 |]. split; [exact He1 |].
  intros fuel Hf. split; [apply H0 | apply H1]; lia.
Qed.

Lemma outside_row_wider_and_no_worse_witness :
  exists (F : nat) (w0 w1 e0 e1 : R),
    w0 <= w1 /\ e1 <= e0 /\
    ComputeSliceError 20 8 2 w0 = Ok e0 /\
    ComputeSliceError 20 8 2 w1 = Ok e1 /\
    forall fuel, (F <= fuel)%nat ->
      UnrestrictedFitByPieceWidth fuel 20 8 2 5 true true false = Ok w0 /\
      UnrestrictedFitByPieceWidth fuel 20 8 2 5 true true true = Ok w1.
Proof.
  exact (outside_row_wider_and_no_worse 20 8 2 5 true true
           ltac:(lra) ltac:(lra) ltac:(lra) ltac:(lra) ltac:(lra)).
Defined.

(** X9.  The outside search is idempotent: run again on the width it
    returned, with that width's error, it returns the same width.  For
    a row inside the disk, a positive pip width, a start width [W >= 0]
    and [E] the slice error of [W]. *)
Theorem outside_search_idempotent (d y h p W E : R) (a e : bool) :
  0 < d -> 0 <= y -> 0 < h -> y + h <= d / 2 -> 0 < p -> 0 <= W ->
  ComputeSliceError d y h W = Ok E ->
  exists (F : nat) (w E' : R),
    ComputeSliceError d y h w = Ok E' /\
    forall fuel, (F <= fuel)%nat ->
      ConsiderOutsidePieces fuel d y h p E W a e = Ok w /\
      ConsiderOutsidePieces fuel d y h p E' w a e = Ok w.
Proof.
  intros Hd Hy Hh Hyh Hp HW HE.
  destruct (nat_above ((E + segmentArea d y h - W * h) / (p * h)))
    as [N HN].
  assert (Hph : 0 < p * h) by nra.
  assert (HM : E + segmentArea d y h - W * h < INR N * (p * h)).
  { apply Rmult_lt_compat_r with (r := p * h) in HN; [| exact Hph].
    unfold Rdiv in HN. rewrite Rmult_assoc, Rinv_l, Rmult_1_r in HN by lra.
    exact HN. }
  set (st := negb (truthy W)).
  destruct (outside_loop_runs d y h p a e Hd ltac:(lra) Hh Hyh Hp N
              W E st HW HE HM) as [n [[_ [e0 [e1 [He0 [He1 Hrej]]]]] Hrun]].
  set (w := cand_width st a e p W n) in *.
  assert (Hst : negb (truthy w) = match n with O => st | S _ => false end).
  { unfold w. destruct n as [| n]; [reflexivity |].
    rewrite cand_width_S.
    pose proof (cand_width_ge false a e p (W + try_extra st a e p) n
                  ltac:(lra)).
    pose proof (try_extra_ge st a e p Hp).
    rewrite truthy_nonzero by lra. reflexivity. }
  rewrite cand_width_last in He1. fold w in He1. rewrite <- Hst in He1.
  exists (S N), w, e0. split; [exact He0 |].
  intros [| fuel] Hf; [lia |]. split.
  - unfold ConsiderOutsidePieces. cbv zeta. apply Hrun. lia.
  - unfold ConsiderOutsidePieces. cbv zeta.
    exact (outside_loop_reject fuel d y h p w e0 e1 a e _ He1 Hrej).
Qed.

Lemma outside_search_idempotent_witness :
  exists E,
    ComputeSliceError 10 0 3 8 = Ok E /\
    exists (F : nat) (w E' : R),
      ComputeSliceError 10 0 3 w = Ok E' /\
      forall fuel, (F <= fuel)%nat ->
        ConsiderOutsidePieces fuel 10 0 3 4 E 8 true true = Ok w /\
        ConsiderOutsidePieces fuel 10 0 3 4 E' w true true = Ok w.
Proof.
  exists (Rabs (segmentArea 10 0 3 - 8 * 3)).
  assert (HE : ComputeSliceError 10 0 3 8 =
               Ok (Rabs (segmentArea 10 0 3 - 8 * 3)))
    by (apply ComputeSliceError_nonzero; lra).
  split; [exact HE |].
  exact (outside_search_idempotent 10 0 3 4 8 _ true true
           ltac:(lra) ltac:(lra) ltac:(lra) ltac:(lra) ltac:(lra)
           ltac:(lra) HE).
Defined.

(** ** The parity flag without alignment *)

Lemma outside_loop_unaligned (d y h p : R) (e1 e2 : bool) (fuel : nat) :
  forall (cur best : R) (st : bool),
  outside_loop fuel d y h p false e1 cur best st =
  outside_loop fuel d y h p false e2 cur best st.
Proof.
  induction fuel as [| fuel IH]; intros cur best st; [reflexivity |].
  cbn [outside_loop]. cbv zeta.
  replace (try_extra st false e1 p) with (try_extra st false e2 p)
    by (unfold try_extra; now destruct st).
  destruct (ComputeSliceError d y h (cur + try_extra st false e2 p));
    cbn [bind]; try reflexivity.
  destruct (Rlt_dec a best); [apply IH | reflexivity].
Qed.

Lemma row_unaligned (fuel : nat) (d y h p : R) (e1 e2 o : bool) :
  UnrestrictedFitByPieceWidth fuel d y h p false e1 o =
  UnrestrictedFitByPieceWidth fuel d y h p false e2 o.
Proof.
  unfold UnrestrictedFitByPieceWidth, quantize.
  destruct (UnrestrictedFit d y h); cbn [bind]; try reflexivity.
  destruct (py_fmod a p); cbn [bind]; try reflexivity.
  destruct (py_div (a - a0) p); cbn [bind]; try reflexivity.
  destruct o; [| reflexivity].
  destruct (ComputeSliceError d y h (snd (Zfloor a1, a - a0)));
    cbn [bind]; try reflexivity.
  unfold ConsiderOutsidePieces. cbv zeta. apply outside_loop_unaligned.
Qed.

Lemma half_loop_unaligned (fuel : nat) (d h p : R) (e1 e2 o : bool)
    (n : nat) :
  forall (y : R) (ws : list (R * R)) (lw : R),
  half_loop n fuel d h p false e1 o y ws lw =
  half_loop n fuel d h p false e2 o y ws lw.
Proof.
  induction n as [| n IH]; intros y ws lw; [reflexivity |].
  cbn [half_loop]. destruct (Rle_dec (y + h) (d / 2)); [| reflexivity].
  rewrite (row_unaligned fuel d y h p e1 e2 o).
  destruct (UnrestrictedFitByPieceWidth fuel d y h p false e2 o);
    cbn [bind]; try reflexivity.
  apply IH.
Qed.

(** X10.  Without alignment the parity flag is dead: with [align_pips] false
    both strategies return the same result whatever
    [align_even_number] is, on every input and also when they fail. *)
Theorem parity_flag_ignored_when_unaligned (fuel : nat) (d : R) (h : pynum)
    (p : R) (e1 e2 o : bool) :
  FitCircleSplitMiddle fuel d h p false e1 o =
  FitCircleSplitMiddle fuel d h p false e2 o /\
  FitCircleOffsetMiddleHalfPiece fuel d h p false e1 o =
  FitCircleOffsetMiddleHalfPiece fuel d h p false e2 o.
Proof.
  unfold FitCircleSplitMiddle, FitCircleOffsetMiddleHalfPiece,
    UnrestrictedFitHalf. cbv zeta.
  rewrite !(half_loop_unaligned fuel d (num_val h) p e1 e2 o fuel).
  rewrite (row_unaligned fuel d 0 (num_val (py_half h)) p e1 e2 o).
  split; reflexivity.
Qed.

(** ** When the slice error is defined *)

Lemma py_acos_raise (x : R) :
  x < -1 \/ 1 < x -> py_acos x = Raise ValueError.
Proof.
  intros H. unfold py_acos.
  destruct (Rlt_dec x (-1)); [reflexivity |].
  destruct (Rlt_dec 1 x); [reflexivity | lra].
Qed.

Lemma ratio_outside_unit (r t : R) :
  0 < r -> t < - r \/ r < t -> t / r < -1 \/ 1 < t / r.
Proof.
  intros Hr H.
  pose proof (Rinv_0_lt_compat r Hr) as Hi.
  assert (E : r * / r = 1) by (apply Rinv_r; lra).
  unfold Rdiv. destruct H; [left | right]; nra.
Qed.

Lemma capArea_nonneg_below (d y : R) :
  0 < d -> - (d / 2) <= y <= 0 -> 0 <= capArea d y.
Proof.
  intros Hd Hy. unfold capArea. cbv zeta.
  pose proof (acos_bound (y / (d / 2))) as [Ha _].
  pose proof (sqrt_pos (d / 2 * (d / 2) - y * y)) as Hs.
  assert (0 <= acos (y / (d / 2)) * (d / 2 * (d / 2)))
    by (apply Rmult_le_pos; nra).
  nra.
Qed.

(** X11.  A slice error is an area: for a positive diameter, a height [y]
    within the disk, and a top [y + h] within the disk when the width is
    not zero, [ComputeSliceError] returns a value, and the value is not
    negative (also below the equator, and also for a negative width). *)
Theorem slice_error_nonnegative (d y h w : R) :
  0 < d -> - (d / 2) <= y <= d / 2 ->
  (w <> 0 -> - (d / 2) <= y + h <= d / 2) ->
  exists e, ComputeSliceError d y h w = Ok e /\ 0 <= e.
Proof.
  intros Hd Hy Hyh. destruct (Req_dec w 0) as [-> | Hw].
  - exists (capArea d y). split; [now apply ComputeSliceError_zero |].
    destruct (Rle_dec 0 y).
    + apply capArea_nonneg; lra.
    + apply capArea_nonneg_below; lra.
  - exists (Rabs (segmentArea d y h - w * h)).
    split; [apply ComputeSliceError_nonzero; auto | apply Rabs_pos].
Qed.

Lemma slice_error_nonnegative_witness :
  exists e, ComputeSliceError 20 (-3) 2 (-5) = Ok e /\ 0 <= e.
Proof.
  apply (slice_error_nonnegative 20 (-3) 2 (-5)); intros; lra.
Defined.

(** X12.  How [ComputeSliceError] fails.  On a diameter of 0 it raises
    [ZeroDivisionError] whatever the other arguments are.  On a positive
    diameter it raises [ValueError] when [y] is outside the disk, and
    when the width is not zero and [y + h] is outside the disk; a row of
    width zero is never refused for its height. *)
Theorem slice_error_failures (d y h w : R) :
  (d = 0 -> ComputeSliceError d y h w = Raise ZeroDivisionError) /\
  (0 < d -> y < - (d / 2) \/ d / 2 < y ->
   ComputeSliceError d y h w = Raise ValueError) /\
  (0 < d -> w <> 0 -> y + h < - (d / 2) \/ d / 2 < y + h ->
   ComputeSliceError d y h w = Raise ValueError) /\
  (0 < d -> - (d / 2) <= y <= d / 2 ->
   ComputeSliceError d y h 0 = Ok (capArea d y)).
Proof.
  split; [| split; [| split]].
  - intros ->. unfold ComputeSliceError, py_div. cbv zeta.
    destruct (Req_dec_T (0 / 2) 0) as [_ | Hn]; [| elim Hn; lra].
    now destruct (truthy w).
  - intros Hd Hy. unfold ComputeSliceError. cbv zeta.
    rewrite py_div_ok by lra.
    rewrite !bind_Ok.
    rewrite py_acos_raise by (apply ratio_outside_unit; lra).
    now destruct (truthy w).
  - intros Hd Hw Hyh. unfold ComputeSliceError. cbv zeta.
    rewrite truthy_nonzero by exact Hw.
    rewrite py_div_ok by lra. rewrite bind_Ok.
    destruct (py_acos (y / (d / 2))) as [a1 | x |] eqn:Ha.
    + rewrite bind_Ok, py_div_ok by lra. rewrite bind_Ok.
      rewrite py_acos_raise by (apply ratio_outside_unit; lra).
      reflexivity.
    + unfold py_acos in Ha.
      destruct (Rlt_dec (y / (d / 2)) (-1));
        [injection Ha as <-; reflexivity |].
      destruct (Rlt_dec 1 (y / (d / 2)));
        [injection Ha as <-; reflexivity | discriminate].
    + unfold py_acos in Ha.
      destruct (Rlt_dec (y / (d / 2)) (-1)); [discriminate |].
      destruct (Rlt_dec 1 (y / (d / 2))); discriminate.
  - intros Hd Hy. now apply ComputeSliceError_zero.
Qed.

Lemma slice_error_failures_witness :
  ComputeSliceError 0 1 2 5 = Raise ZeroDivisionError /\
  ComputeSliceError 20 11 2 0 = Raise ValueError /\
  ComputeSliceError 20 9 2 5 = Raise ValueError /\
  ComputeSliceError 20 9 2 0 = Ok (capArea 20 9).
Proof.
  split; [apply (proj1 (slice_error_failures 0 1 2 5)); reflexivity |].
  split; [apply (proj1 (proj2 (slice_error_failures 20 11 2 0))); lra |].
  split; [apply (proj1 (proj2 (proj2 (slice_error_failures 20 9 2 5)))); lra |].
  apply (proj2 (proj2 (proj2 (slice_error_failures 20 9 2 5)))); lra.
Defined.

(** ** When [FitCircle] returns *)

Lemma FitCircleOffsetMiddleHalfPiece_runs (d : R) (h : pynum) (p : R)
    (a e o : bool) :
  0 < d -> 0 < num_val h -> 0 < p -> 0 < num_val (py_half h) <= d / 2 ->
  exists F : nat,
    forall fuel, (F <= fuel)%nat ->
    exists s, FitCircleOffsetMiddleHalfPiece fuel d h p a e o = Ok s /\
              0 <= sol_error s.
Proof.
  intros Hd Hh Hp [Hhalf0 Hhalf].
  destruct (UnrestrictedFitHalf_runs d (num_val h) p (num_val (py_half h))
              a e o Hd Hh Hp ltac:(lra)) as [F1 HF1].
  destruct (UnrestrictedFitByPieceWidth_runs d 0 (num_val (py_half h)) p
              a e o Hd ltac:(lra) Hhalf0 ltac:(lra) Hp) as [F2 [k [_ HF2]]].
  destruct (ComputeSliceError_defined d 0 (num_val (py_half h)) p Hd
              ltac:(lra) ltac:(lra)) as [e' [He' He'0]].
  exists (Nat.max F1 F2). intros fuel Hf.
  destruct (HF1 fuel ltac:(lia)) as [rows [Hrows [Hdef _]]].
  destruct (slice_errors_defined d (num_val h) rows Hdef) as [es [Hes Hsum]].
  unfold FitCircleOffsetMiddleHalfPiece, ComputeError. cbv zeta.
  rewrite Hrows, bind_Ok, (HF2 fuel ltac:(lia)), bind_Ok, Hes, !bind_Ok,
    He', bind_Ok.
  eexists. split; [reflexivity |]. cbn [sol_error]. lra.
Qed.

Lemma py_min_enum_nonneg (l : list R) (im : nat * R) :
  Forall (fun x => 0 <= x) l -> py_min_enum l = Ok im -> 0 <= snd im.
Proof.
  intros Hall Hmin. destruct (py_min_enum_spec l im Hmin) as [Hn _].
  apply nth_error_In in Hn. rewrite Forall_forall in Hall. now apply Hall.
Qed.

(** X13.  [FitCircle] returns its report whenever the inputs are positive and
    half the piece height (floored for an integer height) is positive
    and at most the radius: all six solutions are computed, every error
    in the report is non-negative, and so are the two least errors. *)
Theorem FitCircle_returns (d : R) (h : pynum) (p : R) (o : bool) :
  0 < d -> 0 < num_val h -> 0 < p -> 0 < num_val (py_half h) <= d / 2 ->
  exists F : nat, forall fuel, (F <= fuel)%nat ->
    exists rep,
      FitCircle fuel d h p o = Ok rep /\
      length (entries rep) = 6%nat /\
      Forall (fun x => 0 <= sol_error (fst x)) (entries rep) /\
      0 <= snd (best_aligned rep) /\ 0 <= snd (best_unaligned rep).
Proof.
  intros Hd Hh Hp Hhalf.
  destruct (FitCircleSplitMiddle_runs d h p false false o Hd Hh Hp)
    as [F0 H0].
  destruct (FitCircleOffsetMiddleHalfPiece_runs d h p false false o
              Hd Hh Hp Hhalf) as [F1 H1].
  destruct (FitCircleSplitMiddle_runs d h p true true o Hd Hh Hp)
    as [F2 H2].
  destruct (FitCircleOffsetMiddleHalfPiece_runs d h p true true o
              Hd Hh Hp Hhalf) as [F3 H3].
  destruct (FitCircleSplitMiddle_runs d h p true false o Hd Hh Hp)
    as [F4 H4].
  destruct (FitCircleOffsetMiddleHalfPiece_runs d h p true false o
              Hd Hh Hp Hhalf) as [F5 H5].
  exists (F0 + F1 + F2 + F3 + F4 + F5)%nat. intros fuel Hf.
  destruct (H0 fuel ltac:(lia)) as [s0 [E0 P0]].
  destruct (H1 fuel ltac:(lia)) as [s1 [E1 P1]].
  destruct (H2 fuel ltac:(lia)) as [s2 [E2 P2]].
  destruct (H3 fuel ltac:(lia)) as [s3 [E3 P3]].
  destruct (H4 fuel ltac:(lia)) as [s4 [E4 P4]].
  destruct (H5 fuel ltac:(lia)) as [s5 [E5 P5]].
  rewrite FitCircle_unfold, E0, E1, E2, E3, E4, E5, !bind_Ok.
  destruct (py_min_enum [sol_error s2; sol_error s3; sol_error s4;
                         sol_error s5]) as [ma | |] eqn:Hma;
    try (rewrite py_min_enum_cons in Hma; discriminate).
  destruct (py_min_enum [sol_error s0; sol_error s1]) as [mu | |] eqn:Hmu;
    try (rewrite py_min_enum_cons in Hmu; discriminate).
  rewrite !bind_Ok. eexists. split; [reflexivity |].
  cbn [entries best_aligned best_unaligned].
  split; [reflexivity |]. split; [| split].
  - repeat (apply Forall_cons; [cbn [fst]; assumption |]). apply Forall_nil.
  - eapply py_min_enum_nonneg; [| exact Hma].
    repeat (apply Forall_cons; [assumption |]). apply Forall_nil.
  - eapply py_min_enum_nonneg; [| exact Hmu].
    repeat (apply Forall_cons; [assumption |]). apply Forall_nil.
Qed.

Lemma FitCircle_returns_witness :
  exists F : nat, forall fuel, (F <= fuel)%nat ->
    exists rep,
      FitCircle fuel 20 (PyInt 2) 5 true = Ok rep /\
      length (entries rep) = 6%nat /\
      Forall (fun x => 0 <= sol_error (fst x)) (entries rep) /\
      0 <= snd (best_aligned rep) /\ 0 <= snd (best_unaligned rep).
Proof.
  apply (FitCircle_returns 20 (PyInt 2) 5 true); cbn; lra.
Defined.

(** X14.  [FitCircle] fails on small disks: with positive inputs, when half
    the piece height (floored for an integer height) is above the
    radius, the run ends in the [ValueError] of the middle row of the
    first offset solution; nothing is reported. *)
Theorem FitCircle_fails_when_middle_row_too_high (d : R) (h : pynum) (p : R)
    (o : bool) :
  0 < d -> 0 < num_val h -> 0 < p -> d / 2 < num_val (py_half h) ->
  exists F : nat, forall fuel, (F <= fuel)%nat ->
    FitCircle fuel d h p o = Raise ValueError.
Proof.
  intros Hd Hh Hp Hhalf.
  destruct (FitCircleSplitMiddle_runs d h p false false o Hd Hh Hp)
    as [F0 H0].
  exists F0. intros fuel Hf. destruct (H0 fuel Hf) as [s0 [E0 _]].
  rewrite FitCircle_unfold, E0, bind_Ok.
  unfold FitCircleOffsetMiddleHalfPiece. cbv zeta.
  rewrite UnrestrictedFitHalf_no_rows by lra. rewrite bind_Ok.
  unfold UnrestrictedFitByPieceWidth, quantize.
  rewrite UnrestrictedFit_raise by lra. reflexivity.
Qed.

Lemma FitCircle_fails_when_middle_row_too_high_witness :
  exists F : nat, forall fuel, (F <= fuel)%nat ->
    FitCircle fuel (3 / 2) (PyInt 2) 5 true = Raise ValueError.
Proof.
  apply (FitCircle_fails_when_middle_row_too_high (3 / 2) (PyInt 2) 5 true);
    cbn; lra.
Defined.

(** ** A change of unit *)

Section Scaling.

Variable k : R.
Hypothesis k_pos : 0 < k.






















End Scaling.



(** ** How many rows, and the offset solution *)

(** X16.  The row sequence is short: for valid inputs its length times the
    piece height is at most the distance from the start offset to the
    radius plus one piece height, so there are at most
    [(radius - offset) / piece_height + 1] rows, the closing row
    included. *)
Theorem row_count_bounded (d h p off : R) (a e o : bool) :
  0 < d -> 0 < h -> 0 < p -> 0 <= off ->
  exists F : nat, forall fuel, (F <= fuel)%nat ->
    exists rows,
      UnrestrictedFitHalf fuel d h p off a e o = Ok rows /\
      INR (length rows) * h <= Rmax 0 (d / 2 - off) + h.
Proof.
  intros Hd Hh Hp Hoff.
  destruct (UnrestrictedFitHalf_runs d h p off a e o Hd Hh Hp Hoff)
    as [F HF].
  exists F. intros fuel Hf. destruct (HF fuel Hf) as [rows [Hrun _]].
  exists rows. split; [exact Hrun |].
  pose proof (Rmax_l 0 (d / 2 - off)) as Hm0.
  pose proof (Rmax_r 0 (d / 2 - off)) as Hm1.
  destruct rows as [| r0 rows'] eqn:Er; [cbn [length INR]; lra |].
  rewrite <- Er in *.
  assert (Hlen : length rows = S (length rows - 1))
    by (rewrite Er; cbn [length]; lia).
  destruct (nth_error rows (length rows - 1)) as [rl |] eqn:Hl.
  - destruct (UnrestrictedFitHalf_heights fuel d h p off a e o rows Hh Hrun
                _ _ Hl) as [Ey [Hy _]].
    rewrite Hlen, S_INR. lra.
  - apply nth_error_None in Hl. lia.
Qed.

Lemma row_count_bounded_witness :
  exists F : nat, forall fuel, (F <= fuel)%nat ->
    exists rows,
      UnrestrictedFitHalf fuel 20 2 5 1 false false true = Ok rows /\
      INR (length rows) * 2 <= Rmax 0 (20 / 2 - 1) + 2.
Proof.
  exact (row_count_bounded 20 2 5 1 false false true
           ltac:(lra) ltac:(lra) ltac:(lra) ltac:(lra)).
Defined.

Lemma FitCircleOffsetMiddleHalfPiece_inv (fuel : nat) (d : R) (h : pynum)
    (p : R) (a e o : bool) (s : solution) :
  FitCircleOffsetMiddleHalfPiece fuel d h p a e o = Ok s ->
  UnrestrictedFitHalf fuel d (num_val h) p (num_val (py_half h)) a e o =
    Ok (sol_rows s) /\
  UnrestrictedFitByPieceWidth fuel d 0 (num_val (py_half h)) p a e o =
    Ok (sol_middle s).
Proof.
  unfold FitCircleOffsetMiddleHalfPiece. cbv zeta.
  destruct (UnrestrictedFitHalf fuel d (num_val h) p (num_val (py_half h))
              a e o) as [rows | |]; cbn [bind]; try discriminate.
  destruct (UnrestrictedFitByPieceWidth fuel d 0 (num_val (py_half h)) p
              a e o) as [m | |]; cbn [bind]; try discriminate.
  destruct (ComputeError d rows (num_val h)) as [tot | |]; cbn [bind];
    try discriminate.
  destruct (ComputeSliceError d 0 (num_val (py_half h)) p) as [pip | |];
    cbn [bind]; try discriminate.
  intros H. injection H as <-. now split.
Qed.

(** X17.  The offset solution: with positive inputs and half the piece height
    positive and at most the radius, the rows stand at
    [half + i * piece_height], where [half] is half the piece height
    (floored for an integer height); the middle row is a non-negative
    whole number of pips wide; and without the outside search its
    corners [(+- width / 2, half)] are inside the disk. *)
Theorem offset_solution_geometry (d : R) (h : pynum) (p : R) (a e o : bool) :
  0 < d -> 0 < num_val h -> 0 < p -> 0 < num_val (py_half h) <= d / 2 ->
  exists F : nat, forall fuel, (F <= fuel)%nat ->
    exists s,
      FitCircleOffsetMiddleHalfPiece fuel d h p a e o = Ok s /\
      (forall i row, nth_error (sol_rows s) i = Some row ->
         fst row = num_val (py_half h) + INR i * num_val h) /\
      (exists k : Z, (0 <= k)%Z /\ sol_middle s = IZR k * p) /\
      (o = false ->
       (sol_middle s / 2) ^ 2 + num_val (py_half h) ^ 2 <= (d / 2) ^ 2).
Proof.
  intros Hd Hh Hp Hhalf.
  destruct (FitCircleOffsetMiddleHalfPiece_runs d h p a e o Hd Hh Hp Hhalf)
    as [F HF].
  exists F. intros fuel Hf. destruct (HF fuel Hf) as [s [Hs _]].
  exists s. split; [exact Hs |].
  destruct (FitCircleOffsetMiddleHalfPiece_inv _ _ _ _ _ _ _ _ Hs)
    as [Hrows Hmid].
  split; [| split].
  - intros i row Hi.
    exact (proj1 (UnrestrictedFitHalf_heights _ _ _ _ _ _ _ _ _ Hh Hrows
                    i row Hi)).
  - exact (UnrestrictedFitByPieceWidth_pips _ _ _ _ _ _ _ _ _ Hp Hmid).
  - intros ->.
    destruct (inside_width_bounds _ _ _ _ _ _ _ _ Hp Hmid)
      as [HX [[Hw0 Hwu] _]].
    set (X := (d / 2) ^ 2 - (0 + num_val (py_half h)) ^ 2) in *.
    assert (Hsq : sqrt X * sqrt X = X) by now apply sqrt_sqrt.
    pose proof (sqrt_pos X) as Hs0.
    assert (Hww : sol_middle s * sol_middle s <= 2 * sqrt X * (2 * sqrt X))
      by (apply Rmult_le_compat; lra).
    subst X.
    set (r := sqrt ((d / 2) ^ 2 - (0 + num_val (py_half h)) ^ 2)) in *.
    clearbody r. nra.
Qed.

Lemma offset_solution_geometry_witness :
  exists F : nat, forall fuel, (F <= fuel)%nat ->
    exists s,
      FitCircleOffsetMiddleHalfPiece fuel 20 (PyInt 3) 5 true true false =
        Ok s /\
      (forall i row, nth_error (sol_rows s) i = Some row ->
         fst row = num_val (py_half (PyInt 3)) + INR i * num_val (PyInt 3)) /\
      (exists k : Z, (0 <= k)%Z /\ sol_middle s = IZR k * 5) /\
      (false = false ->
       (sol_middle s / 2) ^ 2 + num_val (py_half (PyInt 3)) ^ 2 <=
       (20 / 2) ^ 2).
Proof.
  apply (offset_solution_geometry 20 (PyInt 3) 5 true true false); cbn; lra.
Defined.
